(** * tsgoast: taxonomy classifier, conversion, statement reconstruction and
    traversal, embedded from the Go sources.

    Go strings and byte slices are sequences of bytes: [string] here, one
    [ascii] per byte.  Unsigned machine integers are [N], with the wrap-around
    of every conversion written out.  *)

From Stdlib Require Import ZArith NArith Ascii Lia Bool.
From stdpp Require Import base tactics option list strings gmap.

Local Open Scope Z_scope.
Set Warnings "-register-all".

(** ** The parts of Go's [strings] package the program calls *)

Module strings.

Fixpoint HasPrefix (s prefix : string) {struct prefix} : bool :=
  match prefix, s with
  | EmptyString, _ => true
  | String _ _, EmptyString => false
  | String p prefix', String c s' =>
      if Ascii.eqb c p then HasPrefix s' prefix' else false
  end.

(** [Index s substr] is the byte offset of the first occurrence of [substr]
    in [s], or [-1]. *)
Fixpoint Index (s substr : string) : Z :=
  if HasPrefix s substr then 0
  else match s with
       | EmptyString => -1
       | String _ s' =>
           let i := Index s' substr in
           if i <? 0 then -1 else i + 1
       end.

Definition Contains (s substr : string) : bool := 0 <=? Index s substr.

(** [drop n s] is [s[n:]] and [take n s] is [s[:n]], for [n <= len(s)]. *)
Fixpoint drop (n : nat) (s : string) : string :=
  match n, s with
  | O, _ => s
  | S _, EmptyString => EmptyString
  | S n', String _ s' => drop n' s'
  end.

Fixpoint take (n : nat) (s : string) : string :=
  match n, s with
  | O, _ => EmptyString
  | S _, EmptyString => EmptyString
  | S n', String c s' => String c (take n' s')
  end.

Definition TrimPrefix (s prefix : string) : string :=
  if HasPrefix s prefix then drop (String.length prefix) s else s.

(** White space as [unicode.IsSpace] has it, in UTF-8: the six ASCII
    characters, U+0085, U+00A0, U+1680, U+2000..U+200A, U+2028, U+2029,
    U+202F, U+205F and U+3000. *)
Definition asciiSpace (c : ascii) : bool :=
  let n := N_of_ascii c in
  ((9 <=? n) && (n <=? 13) || (n =? 32))%N.

Definition isSpace2 (c1 c2 : ascii) : bool :=
  let a := N_of_ascii c1 in
  let b := N_of_ascii c2 in
  ((a =? 194) && ((b =? 133) || (b =? 160)))%N.

Definition isSpace3 (c1 c2 c3 : ascii) : bool :=
  let a := N_of_ascii c1 in
  let b := N_of_ascii c2 in
  let c := N_of_ascii c3 in
  ((a =? 225) && (b =? 154) && (c =? 128)
   || (a =? 226) && (b =? 128)
      && ((128 <=? c) && (c <=? 138) || (c =? 168) || (c =? 169) || (c =? 175))
   || (a =? 226) && (b =? 129) && (c =? 159)
   || (a =? 227) && (b =? 128) && (c =? 128))%N.

(** [s] without its leading white-space runes. *)
Fixpoint TrimLeftSpace (s : string) : string :=
  match s with
  | EmptyString => EmptyString
  | String c1 s1 =>
      if asciiSpace c1 then TrimLeftSpace s1
      else match s1 with
           | EmptyString => s
           | String c2 s2 =>
               if isSpace2 c1 c2 then TrimLeftSpace s2
               else match s2 with
                    | EmptyString => s
                    | String c3 s3 =>
                        if isSpace3 c1 c2 c3 then TrimLeftSpace s3 else s
                    end
           end
  end.

Definition allSpace (s : string) : bool :=
  match TrimLeftSpace s with EmptyString => true | _ => false end.

Fixpoint TrimRightSpace (s : string) : string :=
  match s with
  | EmptyString => EmptyString
  | String c s' => if allSpace s then EmptyString else String c (TrimRightSpace s')
  end.

Definition TrimSpace (s : string) : string := TrimRightSpace (TrimLeftSpace s).

End strings.

(** ** Package ast: the generic node model *)

(** [NodeType] is a string type in the source; its eleven constants are the
    only values the program ever stores in a node. *)
Inductive NodeType : Type :=
| NodeTypeFunction
| NodeTypeArrowFunction
| NodeTypeMethod
| NodeTypeInterface
| NodeTypeTypeAlias
| NodeTypeExpression
| NodeTypeIdentifier
| NodeTypeLiteral
| NodeTypeProperty
| NodeTypeParameter
| NodeTypeUnknown.

#[global] Instance NodeType_eq_dec : EqDecision NodeType.
Proof. solve_decision. Defined.

(** [uint32] fields. *)
Record Position : Type := mkPosition {
  Line : N;
  Column : N;
  Offset : N
}.

Record Range : Type := mkRange {
  Start : Position;
  End_ : Position
}.

(** The data of a [BaseNode].  The [ParentNode] back-reference is not stored
    here: a reference to a node ([Node] below) carries it. *)
Inductive BaseNode : Type := mkBaseNode {
  NodeType_ : NodeType;
  Content : string;
  ChildNodes : list BaseNode;
  SourceRange : Range
}.

(** A value of the interface [ast.Node] (a [*BaseNode]): the node it points
    to, its [ParentNode] and, as the identity of the pointer, the position the
    node has among the [ChildNodes] of that parent.  A nil interface value is
    [None] of [option Node]. *)
Inductive Node : Type := mkNode {
  base : BaseNode;
  ParentNode : option Node;
  slot : nat
}.

Definition Type_ (n : Node) : NodeType := NodeType_ (base n).
Definition Text (n : Node) : string := Content (base n).
Definition Range_ (n : Node) : Range := SourceRange (base n).
Definition Parent (n : Node) : option Node := ParentNode n.

(** The children of a node built by [convertNode] have that node as their
    [ParentNode]. *)
Definition Children (n : Node) : list Node :=
  imap (fun i c => mkNode c (Some n) i) (ChildNodes (base n)).

(** ** The classifier, as a switch (first version of the parser) *)

Module parser_switch.

Definition isExpressionType (tsType : string) : bool :=
  let expressionTypes :=
    [ "binary_expression"; "unary_expression"; "call_expression";
      "member_expression"; "assignment_expression"; "ternary_expression";
      "new_expression"; "await_expression" ] in
  (fix loop (l : list string) : bool :=
     match l with
     | [] => false
     | et :: l' => if String.eqb tsType et then true else loop l'
     end) expressionTypes.

Definition mapNodeType (tsType : string) : NodeType :=
  if String.eqb tsType "function_declaration" then NodeTypeFunction
  else if String.eqb tsType "arrow_function" then NodeTypeArrowFunction
  else if String.eqb tsType "method_definition" then NodeTypeMethod
  else if String.eqb tsType "interface_declaration" then NodeTypeInterface
  else if String.eqb tsType "type_alias_declaration" then NodeTypeTypeAlias
  else if String.eqb tsType "identifier" then NodeTypeIdentifier
  else if String.eqb tsType "property_signature" then NodeTypeProperty
  else if String.eqb tsType "formal_parameters"
       || String.eqb tsType "required_parameter"
       || String.eqb tsType "optional_parameter" then NodeTypeParameter
  else if String.eqb tsType "string" || String.eqb tsType "number"
       || String.eqb tsType "true" || String.eqb tsType "false"
       || String.eqb tsType "null" || String.eqb tsType "undefined"
       then NodeTypeLiteral
  else if isExpressionType tsType then NodeTypeExpression
  else NodeTypeUnknown.

End parser_switch.

(** ** The classifier, as two package-level maps (second version) *)

Module parser_map.

Definition nodeTypeMap : gmap string NodeType :=
  <["function_declaration" := NodeTypeFunction]> (
  <["arrow_function" := NodeTypeArrowFunction]> (
  <["method_definition" := NodeTypeMethod]> (
  <["interface_declaration" := NodeTypeInterface]> (
  <["type_alias_declaration" := NodeTypeTypeAlias]> (
  <["identifier" := NodeTypeIdentifier]> (
  <["property_signature" := NodeTypeProperty]> (
  <["formal_parameters" := NodeTypeParameter]> (
  <["required_parameter" := NodeTypeParameter]> (
  <["optional_parameter" := NodeTypeParameter]> (
  <["string" := NodeTypeLiteral]> (
  <["number" := NodeTypeLiteral]> (
  <["true" := NodeTypeLiteral]> (
  <["false" := NodeTypeLiteral]> (
  <["null" := NodeTypeLiteral]> (
  <["undefined" := NodeTypeLiteral]> ∅))))))))))))))).

Definition expressionTypes : gmap string bool :=
  <["binary_expression" := true]> (
  <["unary_expression" := true]> (
  <["call_expression" := true]> (
  <["member_expression" := true]> (
  <["assignment_expression" := true]> (
  <["ternary_expression" := true]> (
  <["new_expression" := true]> (
  <["await_expression" := true]> ∅))))))).

(** Indexing a Go map with an absent key gives the zero value, [false]. *)
Definition isExpressionType (tsType : string) : bool :=
  default false (expressionTypes !! tsType).

Definition mapNodeType (tsType : string) : NodeType :=
  match nodeTypeMap !! tsType with
  | Some nodeType => nodeType
  | None =>
      if isExpressionType tsType then NodeTypeExpression
      else NodeTypeUnknown
  end.

End parser_map.

(** The raw tags with a direct mapping, and the expression-like raw tags, as
    the specification lists them. *)
Definition directlyMapped : list string :=
  [ "function_declaration"; "arrow_function"; "method_definition";
    "interface_declaration"; "type_alias_declaration"; "identifier";
    "property_signature"; "formal_parameters"; "required_parameter";
    "optional_parameter"; "string"; "number"; "true"; "false"; "null";
    "undefined" ].

Definition expressionLike : list string :=
  [ "binary_expression"; "unary_expression"; "call_expression";
    "member_expression"; "assignment_expression"; "ternary_expression";
    "new_expression"; "await_expression" ].


(** ** Outcomes of Go code: a run-time panic, or a return *)

Inductive go (A : Type) : Type :=
| Panicked
| Returned (a : A).
Arguments Panicked {A}.
Arguments Returned {A} a.

(** ** The parsing engine, at its interface (go-tree-sitter) *)

Record Point : Type := mkPoint {
  Row : N;
  Column_ : N
}.

(** An engine node: [Kind], [StartByte], [EndByte] (of type [uint]),
    [StartPosition], [EndPosition], and what [Child(i)] returns for each
    [i < ChildCount()], which may be nil. *)
Inductive TSNode : Type := mkTSNode {
  Kind : string;
  StartByte : N;
  EndByte : N;
  StartPosition : Point;
  EndPosition : Point;
  Child : list (option TSNode)
}.

(** An engine tree; [RootNode] may be nil. *)
Record TSTree : Type := mkTSTree {
  RootNode : option TSNode
}.

(** The [Parser] struct wraps the engine: [parser] stands for
    [p.parser.Parse(source, nil)], which returns a tree or nil. *)
Record Parser : Type := mkParser {
  parser : string -> option TSTree
}.

(** ** parser.go *)

Definition len (s : string) : N := N.of_nat (String.length s).

Definition uint32 (x : N) : N := (x mod 2 ^ 32)%N.

(** [source[lo:hi]]: panics unless [lo <= hi <= len(source)].  Go bounds the
    upper index by the capacity of the buffer; the buffer is taken here to
    have no capacity beyond its length, so results that depend on a panic
    above the length are not stated. *)
Definition slice (source : string) (lo hi : N) : go string :=
  if ((lo <=? hi) && (hi <=? len source))%N
  then Returned (strings.take (N.to_nat (hi - lo)) (strings.drop (N.to_nat lo) source))
  else Panicked.

Definition mapNodeType : string -> NodeType := parser_map.mapNodeType.

(** [convertNode] on a non-nil engine node ([None] children are the nil
    children it skips).  The [parent] argument of the source only initialises
    [ParentNode]: the node being built for a child, and nil for the root (the
    second version assigns the field only when [parent] is non-nil, so that
    the root's [Parent()] is a nil interface); [Children] and [rootNode]
    supply exactly that here. *)
Fixpoint convertNode (node : TSNode) (source : string) : go BaseNode :=
  match slice source (StartByte node) (EndByte node) with
  | Panicked => Panicked
  | Returned content =>
      let convertChildren :=
        fix convertChildren (cs : list (option TSNode)) : go (list BaseNode) :=
          match cs with
          | [] => Returned []
          | None :: cs' => convertChildren cs'
          | Some child :: cs' =>
              match convertNode child source with
              | Panicked => Panicked
              | Returned childNode =>
                  match convertChildren cs' with
                  | Panicked => Panicked
                  | Returned rest => Returned (childNode :: rest)
                  end
              end
          end in
      match convertChildren (Child node) with
      | Panicked => Panicked
      | Returned childNodes =>
          Returned
            {| NodeType_ := mapNodeType (Kind node);
               Content := content;
               ChildNodes := childNodes;
               SourceRange :=
                 {| Start := {| Line := uint32 (Row (StartPosition node));
                                Column := uint32 (Column_ (StartPosition node));
                                Offset := uint32 (StartByte node) |};
                    End_ := {| Line := uint32 (Row (EndPosition node));
                               Column := uint32 (Column_ (EndPosition node));
                               Offset := uint32 (EndByte node) |} |} |}
      end
  end.

(** The root reference [Parse] returns: no parent. *)
Definition rootNode (b : BaseNode) : Node :=
  {| base := b; ParentNode := None; slot := 0 |}.

(** [Parse] returns a pair [(node, err)]; either component may be nil. *)
Definition Parse (p : Parser) (source : string) : go (option Node * option string) :=
  if (len source =? 0)%N then Returned (None, Some "source code is empty")
  else
    match parser p source with
    | None => Returned (None, Some "failed to parse source code")
    | Some tree =>
        match RootNode tree with
        | None => Returned (None, Some "failed to get root node")
        | Some root =>
            match convertNode root source with
            | Panicked => Panicked
            | Returned b => Returned (Some (rootNode b), None)
            end
        end
    end.

(** ** ast/statement.go: the typed statements

    Each variant embeds a copy of the originating node and the fields its
    builder computes; the fields a builder leaves at their zero value or
    sets to an empty slice are not represented. *)

Inductive Statement : Type :=
| VariableStatement (node : Node) (Kind_ : string)
| FunctionDeclaration (node : Node) (Name : string)
    (IsAsync IsExported IsGenerator : bool)
| ClassDeclaration (node : Node) (Name : string) (IsAbstract IsExported : bool)
| IfStatement (node : Node)
| WhileStatement (node : Node)
| ForStatement (node : Node)
| ForInStatement (node : Node)
| ForOfStatement (node : Node) (IsAwait : bool)
| SwitchStatement (node : Node)
| TryStatement (node : Node)
| ReturnStatement (node : Node)
| ThrowStatement (node : Node)
| BreakStatement (node : Node)
| ContinueStatement (node : Node)
| ExpressionStatement (node : Node)
| ImportDeclaration (node : Node)
| ExportDeclaration (node : Node) (IsDefault : bool)
| EnumDeclaration (node : Node) (IsConst IsExported : bool)
| NamespaceDeclaration (node : Node) (IsExported : bool).

(** ** tree.go: the statement reconstructor *)

Record Tree : Type := mkTree {
  Root : option Node;
  Statements : list Statement
}.

Definition buildVariableStatement (node : Node) : Statement :=
  let text := Text node in
  let kind :=
    if strings.Contains text "const " then "const"
    else if strings.Contains text "let " then "let"
    else "var" in
  VariableStatement node kind.

(** The first direct child tagged Identifier, if any. *)
Fixpoint firstIdentifier (children : list Node) : option Node :=
  match children with
  | [] => None
  | child :: rest =>
      if decide (Type_ child = NodeTypeIdentifier) then Some child
      else firstIdentifier rest
  end.

Definition extractFunctionName (node : Node) : string :=
  match firstIdentifier (Children node) with
  | Some child => Text child
  | None =>
      let text := strings.TrimSpace (Text node) in
      let text :=
        if strings.HasPrefix text "async "
        then strings.TrimSpace (strings.TrimPrefix text "async ")
        else text in
      let text :=
        if strings.HasPrefix text "function "
        then strings.TrimPrefix text "function "
        else if strings.HasPrefix text "function*"
        then strings.TrimPrefix text "function*"
        else text in
      let text := strings.TrimSpace text in
      let idx := strings.Index text "(" in
      if 0 <? idx then strings.TrimSpace (strings.take (Z.to_nat idx) text)
      else ""
  end.

Definition extractClassName (node : Node) : string :=
  match firstIdentifier (Children node) with
  | Some child => Text child
  | None =>
      let text := strings.TrimSpace (Text node) in
      let text :=
        if strings.HasPrefix text "abstract "
        then strings.TrimSpace (strings.TrimPrefix text "abstract ")
        else text in
      let text :=
        if strings.HasPrefix text "class "
        then strings.TrimPrefix text "class "
        else text in
      let text := strings.TrimSpace text in
      (fix loop (delims : list string) : string :=
         match delims with
         | [] => strings.TrimSpace text
         | delim :: rest =>
             let idx := strings.Index text delim in
             if 0 <? idx then strings.TrimSpace (strings.take (Z.to_nat idx) text)
             else loop rest
         end) ["{"; " extends"; " implements"; "<"]
  end.

Definition buildFunctionDeclaration (node : Node) : Statement :=
  let text := Text node in
  FunctionDeclaration node (extractFunctionName node)
    (strings.Contains text "async ")
    (strings.HasPrefix (strings.TrimSpace text) "export ")
    (strings.Contains text "function*").

Definition buildClassDeclaration (node : Node) : Statement :=
  let text := Text node in
  ClassDeclaration node (extractClassName node)
    (strings.Contains text "abstract ")
    (strings.HasPrefix (strings.TrimSpace text) "export ").

Definition buildForStatement (node : Node) : Statement :=
  let text := Text node in
  if strings.Contains text " of "
  then ForOfStatement node (strings.Contains text "await ")
  else if strings.Contains text " in "
  then ForInStatement node
  else ForStatement node.

Definition buildExportDeclaration (node : Node) : Statement :=
  ExportDeclaration node (strings.Contains (Text node) "export default").

Definition buildEnumDeclaration (node : Node) : Statement :=
  let text := Text node in
  EnumDeclaration node (strings.Contains text "const enum")
    (strings.HasPrefix (strings.TrimSpace text) "export ").

Definition buildNamespaceDeclaration (node : Node) : Statement :=
  NamespaceDeclaration node
    (strings.HasPrefix (strings.TrimSpace (Text node)) "export ").

(** [buildStatement]: the rules in the order of the source, first match
    wins; [None] is the nil statement. *)
Definition buildStatement (node : option Node) : option Statement :=
  match node with
  | None => None
  | Some baseNode =>
      let text := Text baseNode in
      let trimmed := strings.TrimSpace text in
      if strings.HasPrefix trimmed "const " || strings.HasPrefix trimmed "let "
         || strings.HasPrefix trimmed "var "
      then Some (buildVariableStatement baseNode)
      else if strings.HasPrefix trimmed "function "
              || strings.HasPrefix trimmed "async function"
      then Some (buildFunctionDeclaration baseNode)
      else if strings.HasPrefix trimmed "class "
              || strings.HasPrefix trimmed "abstract class"
      then Some (buildClassDeclaration baseNode)
      else if strings.HasPrefix trimmed "if " || strings.HasPrefix trimmed "if("
      then Some (IfStatement baseNode)
      else if strings.HasPrefix trimmed "while "
              || strings.HasPrefix trimmed "while("
      then Some (WhileStatement baseNode)
      else if strings.HasPrefix trimmed "for " || strings.HasPrefix trimmed "for("
      then Some (buildForStatement baseNode)
      else if strings.HasPrefix trimmed "switch "
              || strings.HasPrefix trimmed "switch("
      then Some (SwitchStatement baseNode)
      else if strings.HasPrefix trimmed "try " || strings.HasPrefix trimmed "try{"
      then Some (TryStatement baseNode)
      else if strings.HasPrefix trimmed "return"
      then Some (ReturnStatement baseNode)
      else if strings.HasPrefix trimmed "throw "
      then Some (ThrowStatement baseNode)
      else if strings.HasPrefix trimmed "break"
      then Some (BreakStatement baseNode)
      else if strings.HasPrefix trimmed "continue"
      then Some (ContinueStatement baseNode)
      else if strings.HasPrefix trimmed "import "
      then Some (ImportDeclaration baseNode)
      else if strings.HasPrefix trimmed "export "
      then Some (buildExportDeclaration baseNode)
      else if strings.Contains text "enum "
      then Some (buildEnumDeclaration baseNode)
      else if strings.Contains text "namespace "
      then Some (buildNamespaceDeclaration baseNode)
      else if (0 <? len trimmed)%N && negb (strings.HasPrefix text "//")
      then Some (ExpressionStatement baseNode)
      else None
  end.

Definition extractStatements (node : option Node) : list Statement :=
  match node with
  | None => []
  | Some n =>
      fold_left
        (fun statements child =>
           match buildStatement (Some child) with
           | Some stmt => statements ++ [stmt]
           | None => statements
           end)
        (Children n) []
  end.

(** [ParseTree] returns a pair [(tree, err)]. *)
Definition ParseTree (p : Parser) (source : string) : go (option Tree * option string) :=
  match Parse p source with
  | Panicked => Panicked
  | Returned (_, Some err) => Returned (None, Some err)
  | Returned (root, None) =>
      Returned (Some {| Root := root; Statements := extractStatements root |}, None)
  end.

(** ** analyzer/analyzer.go: traversal and queries

    A visitor is a Go closure: it returns the continue flag and may update
    the variables it captured, the state [St] threaded here. *)

Record Analyzer : Type := New {
  root : option Node
}.

(** [visitNode] on a non-nil node, by recursion on the node's data; the
    reference handed to the visitor is [mkNode b parent i]. *)
Fixpoint visitFrom {St : Type} (visitor : Node -> St -> bool * St)
    (b : BaseNode) (parent : option Node) (i : nat) (s : St) : St :=
  let node := {| base := b; ParentNode := parent; slot := i |} in
  let '(continue, s) := visitor node s in
  if continue then
    (fix each (children : list BaseNode) (j : nat) (s : St) : St :=
       match children with
       | [] => s
       | child :: rest => each rest (S j) (visitFrom visitor child (Some node) j s)
       end) (ChildNodes b) 0%nat s
  else s.

Definition visitNode {St : Type} (node : option Node)
    (visitor : Node -> St -> bool * St) (s : St) : St :=
  match node with
  | None => s
  | Some n => visitFrom visitor (base n) (ParentNode n) (slot n) s
  end.

Definition Visit {St : Type} (a : Analyzer)
    (visitor : Node -> St -> bool * St) (s : St) : St :=
  match root a with
  | None => s
  | Some r => visitNode (Some r) visitor s
  end.

Definition FindNodes (a : Analyzer) (predicate : Node -> bool) : list Node :=
  Visit a
    (fun node results =>
       (true, if predicate node then results ++ [node] else results))
    [].

Definition FindNodesByType (a : Analyzer) (nodeType : NodeType) : list Node :=
  FindNodes a (fun node => bool_decide (Type_ node = nodeType)).

Definition CountNodes (a : Analyzer) (predicate : Node -> bool) : nat :=
  Visit a
    (fun node count => (true, if predicate node then S count else count))
    0%nat.

Definition CountNodesByType (a : Analyzer) (nodeType : NodeType) : nat :=
  CountNodes a (fun node => bool_decide (Type_ node = nodeType)).

(** ** analyzer/function.go *)

Definition FindFunctions (a : Analyzer) : list Node :=
  FindNodes a
    (fun node =>
       let t := Type_ node in
       bool_decide (t = NodeTypeFunction) || bool_decide (t = NodeTypeArrowFunction)).

Definition findIdentifierInChildren (node : Node) : string :=
  (fix loop (children : list Node) : string :=
     match children with
     | [] => ""
     | child :: rest =>
         if decide (Type_ child = NodeTypeIdentifier) then Text child
         else loop rest
     end) (Children node).

Definition isVariableNameForArrowFunction (parent identifier arrowFunc : Node) : bool :=
  let parentText := Text parent in
  let identifierText := Text identifier in
  let arrowText := Text arrowFunc in
  let identifierPos := strings.Index parentText identifierText in
  let arrowPos := strings.Index parentText arrowText in
  if (identifierPos =? -1) || (arrowPos =? -1) then false
  else identifierPos <? arrowPos.

(** The slots from a node up to the root: the identity of the pointer, so
    that [==] on two references into one tree compares their paths. *)
Fixpoint path (n : Node) : list nat :=
  slot n :: match ParentNode n with
            | None => []
            | Some p => path p
            end.

Definition samePointer (a b : option Node) : bool :=
  match a, b with
  | None, None => true
  | Some x, Some y => bool_decide (path x = path y)
  | _, _ => false
  end.

(** The inner loop of [extractArrowFunctionName]: the first Identifier child
    of [current] that passes the position test. *)
Fixpoint scanChildren (current arrow : Node) (children : list Node) : option string :=
  match children with
  | [] => None
  | child :: rest =>
      if decide (Type_ child = NodeTypeIdentifier)
      then if isVariableNameForArrowFunction current child arrow
           then Some (Text child)
           else scanChildren current arrow rest
      else scanChildren current arrow rest
  end.

(** The outer loop, entered with a non-nil [current]. *)
Fixpoint arrowNameLoop (arrow current : Node) : string :=
  match scanChildren current arrow (Children current) with
  | Some name => name
  | None =>
      match ParentNode current with
      | None => ""
      | Some next =>
          if samePointer (Parent next) (Some next) then ""
          else arrowNameLoop arrow next
      end
  end.

Definition extractArrowFunctionName (node : Node) : string :=
  match Parent node with
  | None => ""
  | Some current => arrowNameLoop node current
  end.

Definition GetFunctionName (node : option Node) : string :=
  match node with
  | None => ""
  | Some n =>
      let nodeType := Type_ n in
      if bool_decide (nodeType = NodeTypeFunction)
         || bool_decide (nodeType = NodeTypeMethod)
      then findIdentifierInChildren n
      else if bool_decide (nodeType = NodeTypeArrowFunction)
      then extractArrowFunctionName n
      else ""
  end.

(** The closure [countInNode] of [CountParameters], with the captured
    counter threaded through. *)
Fixpoint countInNode (n : BaseNode) (count : nat) : nat :=
  let count :=
    if decide (NodeType_ n = NodeTypeParameter) then
      let text := strings.TrimSpace (Content n) in
      if negb (String.eqb text "") && negb (strings.HasPrefix text "(")
      then S count else count
    else count in
  fold_left (fun count child => countInNode child count) (ChildNodes n) count.

Definition CountParameters (node : option Node) : nat :=
  match node with
  | None => 0%nat
  | Some n => countInNode (base n) 0%nat
  end.

(** ** The engine's trees for the scenario inputs

    What tree-sitter-typescript returns for the one-line sources of the
    scenarios: every node is on row 0, so its column is its byte offset. *)

Definition ts (kind : string) (lo hi : N) (children : list TSNode) : TSNode :=
  {| Kind := kind; StartByte := lo; EndByte := hi;
     StartPosition := {| Row := 0; Column_ := lo |};
     EndPosition := {| Row := 0; Column_ := hi |};
     Child := map Some children |}.

Definition engineOn (source : string) (tree : TSNode) : Parser :=
  {| parser := fun src =>
       if String.eqb src source then Some {| RootNode := Some tree |}
       else None |}.

Definition src_export_async : string := "export async function f() {}".

Definition cst_export_async : TSNode :=
  ts "program" 0 28
    [ ts "export_statement" 0 28
        [ ts "export" 0 6 [];
          ts "function_declaration" 7 28
            [ ts "async" 7 12 [];
              ts "function" 13 21 [];
              ts "identifier" 22 23 [];
              ts "formal_parameters" 23 25
                [ ts "(" 23 24 []; ts ")" 24 25 [] ];
              ts "statement_block" 26 28
                [ ts "{" 26 27 []; ts "}" 27 28 [] ] ] ] ].

Definition src_const_add : string := "const add = (a, b) => a + b;".

Definition cst_const_add : TSNode :=
  ts "program" 0 28
    [ ts "lexical_declaration" 0 28
        [ ts "const" 0 5 [];
          ts "variable_declarator" 6 27
            [ ts "identifier" 6 9 [];
              ts "=" 10 11 [];
              ts "arrow_function" 12 27
                [ ts "formal_parameters" 12 18
                    [ ts "(" 12 13 [];
                      ts "required_parameter" 13 14 [ ts "identifier" 13 14 [] ];
                      ts "," 14 15 [];
                      ts "required_parameter" 16 17 [ ts "identifier" 16 17 [] ];
                      ts ")" 17 18 [] ];
                  ts "=>" 19 21 [];
                  ts "binary_expression" 22 27
                    [ ts "identifier" 22 23 [];
                      ts "+" 24 25 [];
                      ts "identifier" 26 27 [] ] ] ];
          ts ";" 27 28 [] ] ].

Definition src_for_of : string := "for (const item of items) {}".

Definition cst_for_of : TSNode :=
  ts "program" 0 28
    [ ts "for_in_statement" 0 28
        [ ts "for" 0 3 [];
          ts "(" 4 5 [];
          ts "const" 5 10 [];
          ts "identifier" 11 15 [];
          ts "of" 16 18 [];
          ts "identifier" 19 24 [];
          ts ")" 24 25 [];
          ts "statement_block" 26 28
            [ ts "{" 26 27 []; ts "}" 27 28 [] ] ] ].

(** ** Specification-level vocabulary for the reconstructor's rules *)

(** The prefixes that rules 1 to 11 test on the trimmed text, and the
    substrings that rules 12 and 13 test on the text. *)
Definition prefixRules : list string :=
  [ "const "; "let "; "var "; "function "; "async function"; "class ";
    "abstract class"; "if "; "if("; "while "; "while("; "for "; "for(";
    "switch "; "switch("; "try "; "try{"; "return"; "throw "; "break";
    "continue"; "import "; "export " ].

Definition containsRules : list string := [ "enum "; "namespace " ].

Definition matchedByRule (text : string) : bool :=
  existsb (strings.HasPrefix (strings.TrimSpace text)) prefixRules
  || existsb (strings.Contains text) containsRules.

(** A line comment: the text starts with two slashes. *)
Definition isLineComment (text : string) : bool := strings.HasPrefix text "//".

(** A hand-built node, for examples: a leaf or inner node with a given tag
    and text, at offset 0. *)
Definition nodeOf (t : NodeType) (text : string) (children : list BaseNode) : BaseNode :=
  {| NodeType_ := t; Content := text; ChildNodes := children;
     SourceRange :=
       {| Start := {| Line := 0; Column := 0; Offset := 0 |};
          End_ := {| Line := 0; Column := len text; Offset := len text |} |} |}.

(** ** Specification-level vocabulary for trees *)

(** Every node of a tree, the root first. *)
Fixpoint nodes (b : BaseNode) : list BaseNode :=
  b :: flat_map nodes (ChildNodes b).

(** The nodes strictly below a node. *)
Definition descendants (b : BaseNode) : list BaseNode :=
  flat_map nodes (ChildNodes b).

(** A node tagged Parameter whose trimmed text is non-empty and does not
    start with an opening parenthesis. *)
Definition countedParameter (b : BaseNode) : bool :=
  bool_decide (NodeType_ b = NodeTypeParameter)
  && negb (String.eqb (strings.TrimSpace (Content b)) "")
  && negb (strings.HasPrefix (strings.TrimSpace (Content b)) "(").

(** ** Specification-level vocabulary for arrow-function names *)

(** The parent chain of a node, the nearest ancestor first. *)
Fixpoint ancestorsOf (n : Node) : list Node :=
  match ParentNode n with
  | None => []
  | Some p => p :: ancestorsOf p
  end.

(** The text [identifierText] occurs in [ancestorText], and its first
    occurrence lies before the first occurrence of [arrowText]. *)
Definition occursBefore (ancestorText identifierText arrowText : string) : bool :=
  let i := strings.Index ancestorText identifierText in
  let j := strings.Index ancestorText arrowText in
  (0 <=? i) && (0 <=? j) && (i <? j).

(** The candidates for the name, in the order of the search: every ancestor,
    nearest first, paired with each of its direct children tagged Identifier,
    in child order. *)
Definition nameCandidates (arrow : Node) : list (Node * Node) :=
  flat_map
    (fun a =>
       map (fun c => (a, c))
         (List.filter (fun c => bool_decide (Type_ c = NodeTypeIdentifier))
            (Children a)))
    (ancestorsOf arrow).

(** The name the specification describes: the text of the first candidate
    whose text occurs before the arrow function's text within the ancestor's
    text, and the empty string when there is none. *)
Definition recoveredName (arrow : Node) : string :=
  match List.find (fun '(a, c) => occursBefore (Text a) (Text c) (Text arrow))
          (nameCandidates arrow) with
  | Some (_, c) => Text c
  | None => ""
  end.

(** ** Specification-level vocabulary for the traversal *)

(** Depth-first pre-order listing of the references to the nodes of a
    subtree: the node, then the listing of each child in order. *)
Fixpoint preorderFrom (b : BaseNode) (parent : option Node) (i : nat) : list Node :=
  let node := {| base := b; ParentNode := parent; slot := i |} in
  node ::
    (fix each (children : list BaseNode) (j : nat) : list Node :=
       match children with
       | [] => []
       | child :: rest => preorderFrom child (Some node) j ++ each rest (S j)
       end) (ChildNodes b) 0%nat.

Definition preorder (n : Node) : list Node :=
  preorderFrom (base n) (ParentNode n) (slot n).

(** A visitor instrumented with a log of its invocations: the node it was
    called on and the flag it returned, in call order. *)
Definition logged {St : Type} (visitor : Node -> St -> bool * St)
    (node : Node) (st : St * list (Node * bool)) : bool * (St * list (Node * bool)) :=
  let '(continue, s) := visitor node (fst st) in
  (continue, (s, snd st ++ [(node, continue)])).

(** The log of one call of [visitNode] on a non-nil node. *)
Definition trace {St : Type} (visitor : Node -> St -> bool * St)
    (n : Node) (s : St) : list (Node * bool) :=
  snd (visitNode (Some n) (logged visitor) (s, [])).

(** [x] lies in the subtree of [c]: the path of [c] is a suffix of the path
    of [x]. *)
Definition below (c x : Node) : Prop := exists q, path x = q ++ path c.

(** The log of visiting a list of siblings in order. *)
Definition traceAll {St : Type} (visitor : Node -> St -> bool * St)
    (children : list Node) (s : St) : list (Node * bool) :=
  snd (fold_left (fun st child => visitNode (Some child) (logged visitor) st)
         children (s, [])).

(** Children of one node, in pairwise different slots. *)
Definition siblings (n : Node) (cs : list Node) : Prop :=
  Forall (fun c => ParentNode c = Some n) cs /\ NoDup (map slot cs).

(** The loop over the children in [visitNode]. *)
Definition visitAll {St : Type} (visitor : Node -> St -> bool * St)
    (children : list Node) (s : St) : St :=
  fold_left (fun s child => visitNode (Some child) visitor s) children s.

(** A property of the non-nil children of an engine node. *)
Definition onChild (P : TSNode -> Prop) (oc : option TSNode) : Prop :=
  match oc with Some c => P c | None => True end.

(** ** parser.go and tree.go: the file entry points

    [os.ReadFile] is the file system at its interface: the bytes of the
    file, or an error with its message. *)

Inductive readResult : Type :=
| ReadOk (data : string)
| ReadErr (msg : string).

Definition ParseFile (ReadFile : string -> readResult) (p : Parser) (path : string)
    : go (option Node * option string) :=
  match ReadFile path with
  | ReadErr err => Returned (None, Some ("failed to read file: " +:+ err))
  | ReadOk source => Parse p source
  end.

Definition ParseTreeFromFile (ReadFile : string -> readResult) (p : Parser)
    (path : string) : go (option Tree * option string) :=
  match ParseFile ReadFile p path with
  | Panicked => Panicked
  | Returned (_, Some err) => Returned (None, Some err)
  | Returned (root, None) =>
      Returned (Some {| Root := root; Statements := extractStatements root |}, None)
  end.

(** ** analyzer/function.go: the remaining helpers *)

Definition FindMethods (a : Analyzer) : list Node :=
  FindNodesByType a NodeTypeMethod.

Definition IsAsync (node : option Node) : bool :=
  match node with
  | None => false
  | Some n =>
      let t := Type_ n in
      if negb (bool_decide (t = NodeTypeFunction))
         && negb (bool_decide (t = NodeTypeArrowFunction))
         && negb (bool_decide (t = NodeTypeMethod))
      then false
      else strings.Contains (Text n) "async "
  end.

(** The closure [isExportNode] of [IsExported]. *)
Definition isExportNode (n : Node) : bool :=
  strings.HasPrefix (strings.TrimSpace (Text n)) "export ".

(** The loop [for i := 0; i < 3 && current != nil; i++], with the number of
    iterations that remain. *)
Fixpoint isExportedLoop (remaining : nat) (current : option Node) : bool :=
  match remaining, current with
  | S remaining', Some c =>
      if isExportNode c then true else isExportedLoop remaining' (Parent c)
  | _, _ => false
  end.

Definition IsExported (node : option Node) : bool :=
  match node with
  | None => false
  | Some n =>
      if isExportNode n then true else isExportedLoop 3 (Parent n)
  end.

Definition IsGenerator (node : option Node) : bool :=
  match node with
  | None => false
  | Some n =>
      if negb (bool_decide (Type_ n = NodeTypeFunction)) then false
      else strings.Contains (Text n) "function*"
  end.

Definition HasParameters (node : option Node) : bool :=
  match node with
  | None => false
  | Some n =>
      (fix loop (children : list Node) : bool :=
         match children with
         | [] => false
         | child :: rest =>
             if decide (Type_ child = NodeTypeParameter) then true else loop rest
         end) (Children n)
  end.

(** ** analyzer/function.go, an earlier version *)

Module function_v1.

Definition IsExported (node : option Node) : bool :=
  match node with
  | None => false
  | Some n => strings.HasPrefix (strings.TrimSpace (Text n)) "export "
  end.

Definition GetFunctionName (node : option Node) : string :=
  match node with
  | None => ""
  | Some n =>
      (fix loop (children : list Node) : string :=
         match children with
         | [] => ""
         | child :: rest =>
             if decide (Type_ child = NodeTypeIdentifier) then Text child
             else loop rest
         end) (Children n)
  end.

End function_v1.

(** ** analyzer/types.go *)

Definition FindInterfaces (a : Analyzer) : list Node :=
  FindNodesByType a NodeTypeInterface.

Definition FindTypeAliases (a : Analyzer) : list Node :=
  FindNodesByType a NodeTypeTypeAlias.

Definition GetInterfaceName (node : option Node) : string :=
  match node with
  | None => ""
  | Some n =>
      if negb (bool_decide (Type_ n = NodeTypeInterface)) then ""
      else
        (fix loop (children : list Node) : string :=
           match children with
           | [] => ""
           | child :: rest =>
               if decide (Type_ child = NodeTypeIdentifier) then Text child
               else loop rest
           end) (Children n)
  end.

Definition GetTypeAliasName (node : option Node) : string :=
  match node with
  | None => ""
  | Some n =>
      if negb (bool_decide (Type_ n = NodeTypeTypeAlias)) then ""
      else
        (fix loop (children : list Node) : string :=
           match children with
           | [] => ""
           | child :: rest =>
               if decide (Type_ child = NodeTypeIdentifier) then Text child
               else loop rest
           end) (Children n)
  end.

Definition HasExtends (node : option Node) : bool :=
  match node with
  | None => false
  | Some n =>
      if negb (bool_decide (Type_ n = NodeTypeInterface)) then false
      else strings.Contains (Text n) " extends "
  end.

Definition IsReadonly (node : option Node) : bool :=
  match node with
  | None => false
  | Some n => strings.Contains (Text n) "readonly "
  end.

Definition IsOptionalProperty (node : option Node) : bool :=
  match node with
  | None => false
  | Some n => strings.Contains (Text n) "?:"
  end.

Definition CountProperties (node : option Node) : nat :=
  match node with
  | None => 0%nat
  | Some n =>
      fold_left
        (fun count child =>
           if decide (Type_ child = NodeTypeProperty) then S count else count)
        (Children n) 0%nat
  end.

Definition IsGenericType (node : option Node) : bool :=
  match node with
  | None => false
  | Some n =>
      let t := Type_ n in
      if negb (bool_decide (t = NodeTypeInterface))
         && negb (bool_decide (t = NodeTypeTypeAlias))
      then false
      else strings.Contains (Text n) "<" && strings.Contains (Text n) ">"
  end.

(** ** Specification-level vocabulary for the added properties *)

(** The node a statement embeds. *)
Definition stmtNode (s : Statement) : Node :=
  match s with
  | VariableStatement n _ | FunctionDeclaration n _ _ _ _
  | ClassDeclaration n _ _ _ | IfStatement n | WhileStatement n
  | ForStatement n | ForInStatement n | ForOfStatement n _
  | SwitchStatement n | TryStatement n | ReturnStatement n
  | ThrowStatement n | BreakStatement n | ContinueStatement n
  | ExpressionStatement n | ImportDeclaration n | ExportDeclaration n _
  | EnumDeclaration n _ _ | NamespaceDeclaration n _ => n
  end.

(** The [IsExported] field of the statements that have one. *)
Definition exportedFlag (s : Statement) : bool :=
  match s with
  | FunctionDeclaration _ _ _ e _ => e
  | ClassDeclaration _ _ _ e => e
  | EnumDeclaration _ _ e => e
  | NamespaceDeclaration _ e => e
  | _ => false
  end.

(** The builder that goes with each rule prefix. *)
Definition builderFor (prefix : string) (node : Node) : Statement :=
  if bool_decide (prefix ∈ ["const "; "let "; "var "]) then buildVariableStatement node
  else if bool_decide (prefix ∈ ["function "; "async function"])
  then buildFunctionDeclaration node
  else if bool_decide (prefix ∈ ["class "; "abstract class"])
  then buildClassDeclaration node
  else if bool_decide (prefix ∈ ["if "; "if("]) then IfStatement node
  else if bool_decide (prefix ∈ ["while "; "while("]) then WhileStatement node
  else if bool_decide (prefix ∈ ["for "; "for("]) then buildForStatement node
  else if bool_decide (prefix ∈ ["switch "; "switch("]) then SwitchStatement node
  else if bool_decide (prefix ∈ ["try "; "try{"]) then TryStatement node
  else if bool_decide (prefix = "return") then ReturnStatement node
  else if bool_decide (prefix = "throw ") then ThrowStatement node
  else if bool_decide (prefix = "break") then BreakStatement node
  else if bool_decide (prefix = "continue") then ContinueStatement node
  else if bool_decide (prefix = "import ") then ImportDeclaration node
  else buildExportDeclaration node.

(** Every non-nil node of an engine tree, the root first. *)
Fixpoint tsNodes (n : TSNode) : list TSNode :=
  n :: flat_map (fun oc => match oc with Some c => tsNodes c | None => [] end)
         (Child n).

(** The byte range of an engine node lies within the source. *)
Definition validRange (source : string) (e : TSNode) : bool :=
  ((StartByte e <=? EndByte e) && (EndByte e <=? len source))%N.

(** What [convertNode] makes of one engine node, children aside. *)
Definition copyOf (source : string) (e : TSNode) (m : BaseNode) : Prop :=
  NodeType_ m = mapNodeType (Kind e) /\
  slice source (StartByte e) (EndByte e) = Returned (Content m) /\
  SourceRange m =
    {| Start := {| Line := uint32 (Row (StartPosition e));
                   Column := uint32 (Column_ (StartPosition e));
                   Offset := uint32 (StartByte e) |};
       End_ := {| Line := uint32 (Row (EndPosition e));
                  Column := uint32 (Column_ (EndPosition e));
                  Offset := uint32 (EndByte e) |} |}.
Ltac eqb_step H :=
  apply not_eq_sym in H; apply String.eqb_neq in H; rewrite H; clear H;
  cbn [orb].

Lemma isExpressionType_equiv (tsType : string) :
  parser_switch.isExpressionType tsType = parser_map.isExpressionType tsType.
Proof.
  unfold parser_switch.isExpressionType, parser_map.isExpressionType,
    parser_map.expressionTypes.
  repeat (rewrite lookup_insert; case_decide as Hk;
    [subst tsType; reflexivity | eqb_step Hk]).
  by rewrite lookup_empty.
Qed.

Lemma mapNodeType_equiv (tsType : string) :
  parser_switch.mapNodeType tsType = parser_map.mapNodeType tsType.
Proof.
  unfold parser_switch.mapNodeType, parser_map.mapNodeType,
    parser_map.nodeTypeMap.
  repeat (rewrite lookup_insert; case_decide as Hk;
    [subst tsType; reflexivity | eqb_step Hk]).
  by rewrite lookup_empty, isExpressionType_equiv.
Qed.

Lemma isExpressionType_member (tsType : string) :
  parser_switch.isExpressionType tsType = bool_decide (tsType ∈ expressionLike).
Proof.
  unfold parser_switch.isExpressionType, expressionLike.
  repeat match goal with
  | |- context [String.eqb tsType ?k] =>
      destruct (String.eqb_spec tsType k) as [->|?]; [reflexivity|]
  end.
  symmetry. apply bool_decide_eq_false.
  rewrite !not_elem_of_cons. repeat split; auto. apply not_elem_of_nil.
Qed.

Lemma mapNodeType_unmapped (tsType : string) :
  tsType ∉ directlyMapped ->
  parser_switch.mapNodeType tsType =
    if parser_switch.isExpressionType tsType then NodeTypeExpression
    else NodeTypeUnknown.
Proof.
  unfold directlyMapped. rewrite !not_elem_of_cons. intros H.
  unfold parser_switch.mapNodeType.
  repeat match goal with
  | |- context [String.eqb tsType ?k] =>
      destruct (String.eqb_spec tsType k) as [->|?]; [exfalso; tauto|]
  end.
  reflexivity.
Qed.

(** C4. The switch-based and the map-based classifier are the same total
    function on raw kind tags; a tag with no direct mapping is classified
    Expression when it is one of the eight expression-like tags and Unknown
    otherwise, by either classifier. *)
Theorem C4_classifiers_agree (tsType : string) :
  parser_switch.mapNodeType tsType = parser_map.mapNodeType tsType /\
  (tsType ∉ directlyMapped ->
   parser_switch.mapNodeType tsType =
     (if bool_decide (tsType ∈ expressionLike) then NodeTypeExpression
      else NodeTypeUnknown) /\
   parser_map.mapNodeType tsType =
     (if bool_decide (tsType ∈ expressionLike) then NodeTypeExpression
      else NodeTypeUnknown)).
Proof.
  split; [apply mapNodeType_equiv|].
  intros H. rewrite <- mapNodeType_equiv, <- isExpressionType_member.
  split; by apply mapNodeType_unmapped.
Qed.

Lemma C4_classifiers_agree_witness :
  parser_switch.mapNodeType "await_expression" = NodeTypeExpression /\
  parser_map.mapNodeType "await_expression" = NodeTypeExpression /\
  parser_switch.mapNodeType "program" = NodeTypeUnknown /\
  parser_map.mapNodeType "program" = NodeTypeUnknown.
Proof.
  destruct (C4_classifiers_agree "await_expression") as [_ H1].
  destruct (C4_classifiers_agree "program") as [_ H2].
  destruct H1 as [H1a H1b]; [apply (bool_decide_unpack _); vm_compute; exact I|].
  destruct H2 as [H2a H2b]; [apply (bool_decide_unpack _); vm_compute; exact I|].
  repeat split; assumption.
Defined.

(** ** Facts about the string functions *)

Lemma HasPrefix_inv (s p : string) :
  strings.HasPrefix s p = true -> exists rest, s = p +:+ rest.
Proof.
  revert s; induction p as [|c p IH]; intros s H.
  - by exists s.
  - destruct s as [|d s]; [discriminate|]. cbn in H.
    destruct (Ascii.eqb_spec d c) as [->|]; [|discriminate].
    destruct (IH _ H) as [rest ->]. by exists rest.
Qed.

Lemma HasPrefix_app (p rest : string) : strings.HasPrefix (p +:+ rest) p = true.
Proof.
  induction p as [|c p IH]; [reflexivity|].
  simpl. by rewrite Ascii.eqb_refl.
Qed.

(** ** The statement reconstructor *)

Lemma extractStatements_omap (r : Node) :
  extractStatements (Some r) = omap (fun c => buildStatement (Some c)) (Children r).
Proof.
  unfold extractStatements.
  assert (G : forall l acc,
    fold_left (fun statements child =>
      match buildStatement (Some child) with
      | Some stmt => statements ++ [stmt]
      | None => statements
      end) l acc = acc ++ omap (fun c => buildStatement (Some c)) l).
  { induction l as [|c l IH]; intros acc; cbn [fold_left omap list_omap].
    - by rewrite app_nil_r.
    - rewrite IH. destruct (buildStatement (Some c)); [|done].
      by rewrite <- app_assoc. }
  apply (G _ []).
Qed.

(** Rewrites the trimmed text as the matched prefix followed by a rest and
    lets the earlier rules compute away. *)
Ltac split_prefix H :=
  let rest := fresh "rest" in
  let E := fresh "E" in
  apply HasPrefix_inv in H; destruct H as [rest E];
  unfold buildStatement; cbv zeta; rewrite E; cbn -[strings.Contains].

Lemma buildStatement_for (node : Node) :
  strings.HasPrefix (strings.TrimSpace (Text node)) "for " = true \/
  strings.HasPrefix (strings.TrimSpace (Text node)) "for(" = true ->
  buildStatement (Some node) = Some (buildForStatement node).
Proof. intros [H|H]; split_prefix H; reflexivity. Qed.

Lemma buildStatement_export (node : Node) :
  strings.HasPrefix (strings.TrimSpace (Text node)) "export " = true ->
  buildStatement (Some node) =
    Some (ExportDeclaration node (strings.Contains (Text node) "export default")).
Proof. intros H; split_prefix H; reflexivity. Qed.

Lemma buildStatement_variable (node : Node) :
  strings.HasPrefix (strings.TrimSpace (Text node)) "const " = true \/
  strings.HasPrefix (strings.TrimSpace (Text node)) "let " = true \/
  strings.HasPrefix (strings.TrimSpace (Text node)) "var " = true ->
  buildStatement (Some node) = Some (buildVariableStatement node).
Proof. intros [H|[H|H]]; split_prefix H; reflexivity. Qed.

Lemma buildStatement_fallback (node : Node) :
  matchedByRule (Text node) = false ->
  buildStatement (Some node) =
    if (0 <? len (strings.TrimSpace (Text node)))%N
       && negb (strings.HasPrefix (Text node) "//")
    then Some (ExpressionStatement node) else None.
Proof.
  unfold matchedByRule, prefixRules, containsRules. cbn [existsb].
  intros H. repeat (apply orb_false_elim in H; destruct H as [? H]).
  repeat match goal with
  | H : (_ || _) = false |- _ => apply orb_false_elim in H; destruct H
  end.
  unfold buildStatement; cbv zeta.
  repeat match goal with
  | H : strings.HasPrefix _ _ = false |- _ => rewrite H; clear H
  | H : strings.Contains _ _ = false |- _ => rewrite H; clear H
  end.
  reflexivity.
Qed.

Lemma produced_in_statements (root child : Node) (stmt : Statement) :
  child ∈ Children root ->
  buildStatement (Some child) = Some stmt ->
  stmt ∈ extractStatements (Some root).
Proof.
  intros Hin Hb. rewrite extractStatements_omap.
  apply list_elem_of_omap. eauto.
Qed.

Lemma len_zero (s : string) : (len s =? 0)%N = true <-> s = "".
Proof.
  unfold len. destruct s; cbn; [done|].
  split; [|discriminate]. intros H. apply N.eqb_eq in H. lia.
Qed.

(** C1 (as stated). Refuted at the scenario input: the typed tree of
    [export async function f() {}] does not consist of one
    FunctionDeclaration named f with IsAsync and IsExported set. *)
Lemma C1_counterexample :
  ~ exists root node isGenerator,
      ParseTree (engineOn src_export_async cst_export_async) src_export_async =
        Returned
          (Some {| Root := root;
                   Statements := [FunctionDeclaration node "f" true true isGenerator] |},
           None).
Proof.
  intros (r & n & g & H). vm_compute in H. discriminate H.
Qed.

(** C1 (amended). For the input [export async function f() {}] the typed
    tree has exactly one statement, an ExportDeclaration with IsDefault
    false wrapping the root's only child, whose text is the whole source:
    the function rule needs the trimmed text to start with [function ] or
    [async function], so the export rule is the first to match. *)
Theorem C1_export_async_is_export_declaration :
  exists root child,
    ParseTree (engineOn src_export_async cst_export_async) src_export_async =
      Returned
        (Some {| Root := Some root;
                 Statements := [ExportDeclaration child false] |}, None) /\
    Children root = [child] /\
    Text child = src_export_async /\
    buildStatement (Some child) = Some (ExportDeclaration child false).
Proof.
  eexists _, _. repeat split; vm_compute; reflexivity.
Qed.

(** C3. A direct child of the root whose trimmed text starts with [for ] or
    [for(] becomes a ForOfStatement, with IsAwait equal to (text contains
    [await ]), when its text contains [ of ]; otherwise a ForInStatement when
    it contains [ in ]; otherwise a ForStatement.  For the input
    [for (const item of items) {}] the typed tree is one ForOfStatement with
    IsAwait false. *)
Theorem C3_for_family :
  (forall root child : Node,
     child ∈ Children root ->
     strings.HasPrefix (strings.TrimSpace (Text child)) "for " = true \/
     strings.HasPrefix (strings.TrimSpace (Text child)) "for(" = true ->
     let stmt :=
       if strings.Contains (Text child) " of "
       then ForOfStatement child (strings.Contains (Text child) "await ")
       else if strings.Contains (Text child) " in "
       then ForInStatement child
       else ForStatement child in
     buildStatement (Some child) = Some stmt /\
     stmt ∈ extractStatements (Some root)) /\
  (exists root child,
     ParseTree (engineOn src_for_of cst_for_of) src_for_of =
       Returned
         (Some {| Root := Some root; Statements := [ForOfStatement child false] |},
          None) /\
     Children root = [child] /\
     Text child = src_for_of).
Proof.
  split.
  - intros r c Hin Hpre stmt.
    assert (Hb : buildStatement (Some c) = Some stmt)
      by (rewrite buildStatement_for by exact Hpre; reflexivity).
    split; [exact Hb|]. by eapply produced_in_statements.
  - eexists _, _. repeat split; vm_compute; reflexivity.
Qed.

Lemma C3_for_family_witness :
  let root := rootNode (nodeOf NodeTypeUnknown "for (k in o) {}"
                          [nodeOf NodeTypeUnknown "for (k in o) {}" []]) in
  let child := {| base := nodeOf NodeTypeUnknown "for (k in o) {}" [];
                  ParentNode := Some root; slot := 0 |} in
  buildStatement (Some child) = Some (ForInStatement child) /\
  ForInStatement child ∈ extractStatements (Some root).
Proof.
  intros root child.
  destruct C3_for_family as [H _].
  apply (H root child).
  - apply list_elem_of_here.
  - left. reflexivity.
Defined.

(** C8 (as stated). Refuted on a child whose text has white space before
    the two slashes: no rule matches it and its trimmed text is a line
    comment, yet it is not discarded but becomes an ExpressionStatement,
    because the comment test reads the untrimmed text. *)
Lemma C8_counterexample :
  let text := " // x" in
  let root := rootNode (nodeOf NodeTypeUnknown text [nodeOf NodeTypeUnknown text []]) in
  let child := {| base := nodeOf NodeTypeUnknown text [];
                  ParentNode := Some root; slot := 0 |} in
  child ∈ Children root /\
  matchedByRule (Text child) = false /\
  isLineComment (strings.TrimSpace (Text child)) = true /\
  buildStatement (Some child) = Some (ExpressionStatement child) /\
  buildStatement (Some child) <> None.
Proof.
  intros text root child. split; [apply list_elem_of_here|].
  repeat split. discriminate.
Qed.

(** C8 (amended). A direct child of the root that no rule matches is
    discarded (no statement, no error) when its trimmed text is empty or its
    text, untrimmed, starts with the two slashes of a line comment, and
    becomes an ExpressionStatement wrapping it otherwise. *)
Theorem C8_fallback (root child : Node) :
  child ∈ Children root ->
  matchedByRule (Text child) = false ->
  (strings.TrimSpace (Text child) = "" \/ isLineComment (Text child) = true ->
   buildStatement (Some child) = None) /\
  (strings.TrimSpace (Text child) <> "" -> isLineComment (Text child) = false ->
   buildStatement (Some child) = Some (ExpressionStatement child) /\
   ExpressionStatement child ∈ extractStatements (Some root)).
Proof.
  intros Hin Hno. rewrite (buildStatement_fallback _ Hno).
  unfold isLineComment. split.
  - intros [E|E]; rewrite E; [reflexivity|]. by rewrite andb_false_r.
  - intros Hne Hc.
    assert (Hb : buildStatement (Some child) = Some (ExpressionStatement child)).
    { rewrite (buildStatement_fallback _ Hno), Hc.
      destruct (strings.TrimSpace (Text child)); [done|reflexivity]. }
    rewrite <- (buildStatement_fallback _ Hno).
    split; [exact Hb|]. by eapply produced_in_statements.
Qed.

Lemma C8_fallback_witness :
  let kids := [nodeOf NodeTypeUnknown "// note" [];
               nodeOf NodeTypeExpression "f(1);" []] in
  let root := rootNode (nodeOf NodeTypeUnknown "// note f(1);" kids) in
  let comment := {| base := nodeOf NodeTypeUnknown "// note" [];
                    ParentNode := Some root; slot := 0 |} in
  let call := {| base := nodeOf NodeTypeExpression "f(1);" [];
                 ParentNode := Some root; slot := 1 |} in
  buildStatement (Some comment) = None /\
  buildStatement (Some call) = Some (ExpressionStatement call) /\
  ExpressionStatement call ∈ extractStatements (Some root).
Proof.
  intros kids root comment call. split.
  - apply (C8_fallback root comment).
    + apply list_elem_of_here.
    + reflexivity.
    + right. reflexivity.
  - apply (C8_fallback root call).
    + apply list_elem_of_further, list_elem_of_here.
    + reflexivity.
    + discriminate.
    + reflexivity.
Defined.


(** C10. A direct child classified as a VariableStatement (trimmed text
    starting with [const ], [let ] or [var ]) gets its Kind by substring
    containment in the full text, [const ] before [let ] before the default
    var, not from the leading keyword; so a let or var declaration whose
    text contains [const ] elsewhere has Kind const. *)
Theorem C10_variable_kind (root child : Node) :
  child ∈ Children root ->
  strings.HasPrefix (strings.TrimSpace (Text child)) "const " = true \/
  strings.HasPrefix (strings.TrimSpace (Text child)) "let " = true \/
  strings.HasPrefix (strings.TrimSpace (Text child)) "var " = true ->
  let kind :=
    if strings.Contains (Text child) "const " then "const"
    else if strings.Contains (Text child) "let " then "let"
    else "var" in
  buildStatement (Some child) = Some (VariableStatement child kind) /\
  VariableStatement child kind ∈ extractStatements (Some root) /\
  (strings.Contains (Text child) "const " = true ->
   buildStatement (Some child) = Some (VariableStatement child "const")).
Proof.
  intros Hin Hpre kind.
  assert (Hb : buildStatement (Some child) = Some (VariableStatement child kind))
    by (rewrite buildStatement_variable by exact Hpre; reflexivity).
  split; [exact Hb|]. split; [by eapply produced_in_statements|].
  intros Hc. rewrite Hb. subst kind. by rewrite Hc.
Qed.

Lemma C10_variable_kind_witness :
  let text := "var s = 'const x';" in
  let root := rootNode (nodeOf NodeTypeUnknown text [nodeOf NodeTypeUnknown text []]) in
  let child := {| base := nodeOf NodeTypeUnknown text [];
                  ParentNode := Some root; slot := 0 |} in
  buildStatement (Some child) = Some (VariableStatement child "const").
Proof.
  intros text root child.
  apply (C10_variable_kind root child).
  - apply list_elem_of_here.
  - right. right. reflexivity.
  - reflexivity.
Defined.

(** ** Parse *)

(** C6. [Parse] returns an error, and then no node, exactly when the source
    is empty or the engine returns no tree or no root; on the empty input it
    returns the empty-source error; an error never comes with a node. *)
Theorem C6_parse_failure (p : Parser) (source : string) :
  ((exists err, Parse p source = Returned (None, Some err)) <->
   (len source = 0%N \/ parser p source = None \/
    exists tree, parser p source = Some tree /\ RootNode tree = None)) /\
  Parse p "" = Returned (None, Some "source code is empty") /\
  (forall node err, Parse p source = Returned (node, Some err) -> node = None).
Proof.
  unfold Parse. split; [|split; [reflexivity|]].
  - destruct (N.eqb_spec (len source) 0) as [E|E].
    { split; [by left|]. by eexists. }
    destruct (parser p source) as [tree|].
    2: { split; [by right; left|]. by eexists. }
    destruct (RootNode tree) as [r|] eqn:Er.
    2: { split; [right; right; by exists tree|]. by eexists. }
    split.
    + intros [err H]. destruct (convertNode r source); discriminate H.
    + intros [?|[?|(t & Ht & Hr)]]; [done|done|]. congruence.
  - intros node err.
    destruct (len source =? 0)%N; [congruence|].
    destruct (parser p source) as [tree|]; [|congruence].
    destruct (RootNode tree); [|congruence].
    destruct (convertNode _ source); congruence.
Qed.

Lemma C6_parse_failure_witness :
  (exists err, Parse (engineOn src_for_of cst_for_of) "x" = Returned (None, Some err)) /\
  (None : option Node) = None.
Proof.
  pose proof (C6_parse_failure (engineOn src_for_of cst_for_of) "x") as (Hiff & _ & Hnone).
  split.
  - apply Hiff. right. left. reflexivity.
  - apply (Hnone None "failed to parse source code"). reflexivity.
Defined.

(** ** Induction over trees *)

Lemma BaseNode_tree_ind (P : BaseNode -> Prop) :
  (forall t c cs r, Forall P cs -> P (mkBaseNode t c cs r)) ->
  forall b, P b.
Proof.
  intros step. fix IH 1. intros [t c cs r]. apply step.
  induction cs as [|x l IHl]; constructor; [apply IH|exact IHl].
Qed.

Lemma TSNode_tree_ind (P : TSNode -> Prop) :
  (forall n, Forall (onChild P) (Child n) -> P n) ->
  forall n, P n.
Proof.
  intros step. fix IH 1. intros n. apply step.
  destruct n as [k sb eb sp ep cs]. cbn [Child].
  induction cs as [|oc l IHl]; constructor; [|exact IHl].
  destruct oc as [c|]; [apply IH|exact I].
Qed.

(** ** Conversion *)

Lemma slice_inv (source : string) (lo hi : N) (t : string) :
  slice source lo hi = Returned t ->
  (lo <= hi)%N /\ (hi <= len source)%N.
Proof.
  unfold slice. destruct (N.leb_spec lo hi); cbn [andb]; [|discriminate].
  destruct (N.leb_spec hi (len source)); [|discriminate]. auto.
Qed.

(** The children list of a converted node: each one is the conversion of a
    non-nil engine child. *)
Lemma convertNode_inv (node : TSNode) (source : string) (b : BaseNode) :
  convertNode node source = Returned b ->
  slice source (StartByte node) (EndByte node) = Returned (Content b) /\
  Offset (Start (SourceRange b)) = uint32 (StartByte node) /\
  Offset (End_ (SourceRange b)) = uint32 (EndByte node) /\
  NodeType_ b = mapNodeType (Kind node) /\
  Forall (fun k => exists c, Some c ∈ Child node /\ convertNode c source = Returned k)
    (ChildNodes b).
Proof.
  destruct node as [k sb eb sp ep cs]. cbn [convertNode StartByte EndByte Child Kind].
  destruct (slice source sb eb) as [|content]; [discriminate|].
  set (conv := fix convertChildren (l : list (option TSNode)) {struct l}
                 : go (list BaseNode) := _).
  assert (G : forall l kids, conv l = Returned kids ->
    Forall (fun k => exists c, Some c ∈ l /\ convertNode c source = Returned k) kids).
  { induction l as [|[c|] l IH]; intros kids Hk; cbn in Hk.
    - injection Hk as <-. constructor.
    - destruct (convertNode c source) as [|kc] eqn:Ec; [discriminate|].
      destruct (conv l) as [|rest] eqn:Er; [discriminate|].
      injection Hk as <-. constructor.
      + exists c. split; [apply list_elem_of_here|exact Ec].
      + eapply Forall_impl; [apply IH; reflexivity|].
        intros x (c' & Hin & Hc'). exists c'. split; [by apply list_elem_of_further|done].
    - eapply Forall_impl; [apply IH; exact Hk|].
      intros x (c' & Hin & Hc'). exists c'. split; [by apply list_elem_of_further|done]. }
  destruct (conv cs) as [|kids] eqn:Ek; [discriminate|].
  intros [= <-]. cbn. repeat split. by apply G.
Qed.

Lemma uint32_small (x : N) : (x < 2 ^ 32)%N -> uint32 x = x.
Proof. intros H. unfold uint32. by apply N.mod_small. Qed.

(** C7. In a tree produced by [convertNode] from an engine tree over a source
    buffer (of less than 2^32 bytes, the range of the stored offsets), every
    node stores as its text the bytes of the source from its start offset to
    its end offset: the root, and every recursively converted child. *)
Theorem C7_text_is_source_slice (node : TSNode) (source : string) (b : BaseNode) :
  (len source < 2 ^ 32)%N ->
  convertNode node source = Returned b ->
  forall m, m ∈ nodes b ->
    slice source (Offset (Start (SourceRange m))) (Offset (End_ (SourceRange m)))
      = Returned (Content m).
Proof.
  intros Hlen. revert b.
  induction node as [node IH] using TSNode_tree_ind.
  intros b Hb m Hm.
  destruct (convertNode_inv _ _ _ Hb) as (Hs & Ho1 & Ho2 & _ & Hkids).
  destruct b as [t content kids rng]. cbn [nodes ChildNodes] in Hm, Hkids.
  apply elem_of_cons in Hm as [->|Hm].
  - cbn [SourceRange Content] in *. rewrite Ho1, Ho2.
    destruct (slice_inv _ _ _ _ Hs) as [H1 H2].
    rewrite !uint32_small by lia. exact Hs.
  - apply list_elem_of_In, in_flat_map in Hm as (k & Hk & Hm).
    rewrite Forall_forall in Hkids.
    destruct (Hkids k) as (c & Hc & Hconv); [by apply list_elem_of_In|].
    rewrite Forall_forall in IH.
    eapply (IH (Some c) Hc k Hconv). by apply list_elem_of_In.
Qed.

Lemma C7_text_is_source_slice_witness :
  match convertNode cst_const_add src_const_add with
  | Returned b =>
      Forall
        (fun m =>
           slice src_const_add (Offset (Start (SourceRange m)))
             (Offset (End_ (SourceRange m))) = Returned (Content m))
        (nodes b)
  | Panicked => False
  end.
Proof.
  destruct (convertNode cst_const_add src_const_add) as [|b] eqn:E.
  - vm_compute in E. discriminate E.
  - apply Forall_forall. intros m Hm.
    apply (C7_text_is_source_slice cst_const_add src_const_add b).
    + reflexivity.
    + exact E.
    + exact Hm.
Defined.

(** ** CountParameters *)

Lemma fold_countInNode (l : list BaseNode) (count : nat) :
  Forall (fun c => forall k,
            countInNode c k = (k + length (List.filter countedParameter (nodes c)))%nat) l ->
  fold_left (fun count child => countInNode child count) l count =
    (count + length (List.filter countedParameter (flat_map nodes l)))%nat.
Proof.
  intros H. revert count. induction H as [|c l Hc _ IH]; intros count; cbn [fold_left flat_map].
  - cbn. lia.
  - rewrite IH, Hc, List.filter_app, length_app. lia.
Qed.

Lemma countInNode_spec (b : BaseNode) (count : nat) :
  countInNode b count =
    (count + length (List.filter countedParameter (nodes b)))%nat.
Proof.
  revert count. induction b as [t c cs r IH] using BaseNode_tree_ind. intros count.
  cbn [countInNode nodes ChildNodes NodeType_ Content List.filter].
  rewrite (fold_countInNode _ _ IH).
  unfold countedParameter at 2. cbn [NodeType_ Content].
  destruct (decide (t = NodeTypeParameter)) as [->|Hne].
  - rewrite bool_decide_eq_true_2 by done. cbn [andb].
    destruct (negb (String.eqb (strings.TrimSpace c) "")
              && negb (strings.HasPrefix (strings.TrimSpace c) "(")); cbn [length]; lia.
  - rewrite bool_decide_eq_false_2 by done. cbn [andb]. lia.
Qed.

(** C9 (as stated). Refuted on a parameter node: [CountParameters] of the
    node [a] tagged Parameter (with its Identifier child) is 1, while no
    node strictly below it is a counted parameter. *)
Lemma C9_counterexample :
  let param := rootNode (nodeOf NodeTypeParameter "a"
                           [nodeOf NodeTypeIdentifier "a" []]) in
  CountParameters (Some param) = 1%nat /\
  length (List.filter countedParameter (descendants (base param))) = 0%nat /\
  CountParameters (Some param) <>
    length (List.filter countedParameter (descendants (base param))).
Proof. repeat split. discriminate. Qed.

(** C9 (amended). [CountParameters node] is the number of nodes of the
    subtree rooted at [node], the node itself included, that are tagged
    Parameter with a trimmed text that is non-empty and does not start with
    an opening parenthesis; when [node] itself is not such a node this is the
    number of such descendants; a nil node counts 0. *)
Theorem C9_count_parameters (node : Node) :
  CountParameters (Some node) =
    length (List.filter countedParameter (nodes (base node))) /\
  (countedParameter (base node) = false ->
   CountParameters (Some node) =
     length (List.filter countedParameter (descendants (base node)))) /\
  CountParameters None = 0%nat.
Proof.
  unfold CountParameters. rewrite countInNode_spec. cbn [Nat.add].
  repeat split. intros H.
  destruct (base node) as [t c cs r]. unfold descendants.
  cbn [nodes List.filter ChildNodes]. by rewrite H.
Qed.

Lemma C9_count_parameters_witness :
  let fn := rootNode (nodeOf NodeTypeFunction "function f(a, b) {}"
              [nodeOf NodeTypeIdentifier "f" [];
               nodeOf NodeTypeParameter "(a, b)"
                 [nodeOf NodeTypeParameter "a" [nodeOf NodeTypeIdentifier "a" []];
                  nodeOf NodeTypeParameter "b" [nodeOf NodeTypeIdentifier "b" []]]]) in
  CountParameters (Some fn) = 2%nat.
Proof.
  intros fn.
  destruct (C9_count_parameters fn) as (_ & H & _).
  rewrite H; reflexivity.
Defined.

(** ** Arrow-function names *)

Lemma Index_lower_bound (s t : string) : -1 <= strings.Index s t.
Proof.
  induction s as [|c s IH]; cbn [strings.Index].
  - destruct (strings.HasPrefix "" t); lia.
  - destruct (strings.HasPrefix (String c s) t); [lia|].
    destruct (Z.ltb_spec (strings.Index s t) 0); lia.
Qed.

Lemma isVariableName_occursBefore (parent identifier arrow : Node) :
  isVariableNameForArrowFunction parent identifier arrow =
    occursBefore (Text parent) (Text identifier) (Text arrow).
Proof.
  unfold isVariableNameForArrowFunction, occursBefore.
  pose proof (Index_lower_bound (Text parent) (Text identifier)).
  pose proof (Index_lower_bound (Text parent) (Text arrow)).
  destruct (Z.eqb_spec (strings.Index (Text parent) (Text identifier)) (-1)) as [->|];
    [reflexivity|].
  destruct (Z.eqb_spec (strings.Index (Text parent) (Text arrow)) (-1)) as [->|].
  { cbn [orb]. by rewrite andb_false_r. }
  cbn [orb]. rewrite !(proj2 (Z.leb_le _ _)) by lia. reflexivity.
Qed.

(** No node of a tree is its own parent: the guard at the end of the loop
    body of [extractArrowFunctionName] never fires. *)
Lemma never_own_parent (n : Node) : samePointer (Parent n) (Some n) = false.
Proof.
  unfold Parent. destruct n as [b [p|] i]; cbn [ParentNode samePointer]; [|done].
  apply bool_decide_eq_false. cbn [path ParentNode slot]. intros E.
  apply (f_equal length) in E. cbn [length] in E. lia.
Qed.

Lemma scanChildren_find (current arrow : Node) (l : list Node) :
  scanChildren current arrow l =
    match List.find (fun '(a, c) => occursBefore (Text a) (Text c) (Text arrow))
            (map (fun c => (current, c))
               (List.filter (fun c => bool_decide (Type_ c = NodeTypeIdentifier)) l)) with
    | Some (_, c) => Some (Text c)
    | None => None
    end.
Proof.
  induction l as [|c l IH]; [reflexivity|].
  cbn [scanChildren List.filter].
  destruct (decide (Type_ c = NodeTypeIdentifier)) as [E|E].
  - rewrite bool_decide_eq_true_2 by done. cbn [map List.find].
    rewrite isVariableName_occursBefore.
    destruct (occursBefore _ _ _); [reflexivity|exact IH].
  - rewrite bool_decide_eq_false_2 by done. exact IH.
Qed.

Lemma find_app_pairs {A : Type} (f : A -> bool) (l1 l2 : list A) :
  List.find f (l1 ++ l2) =
    match List.find f l1 with Some x => Some x | None => List.find f l2 end.
Proof.
  induction l1 as [|x l1 IH]; [reflexivity|].
  cbn [app List.find]. destruct (f x); [reflexivity|exact IH].
Qed.

Lemma Node_parent_ind (P : Node -> Prop) :
  (forall n, match ParentNode n with Some p => P p | None => True end -> P n) ->
  forall n, P n.
Proof.
  intros step. fix IH 1. intros n. apply step.
  destruct n as [b [p|] i]; cbn [ParentNode]; [apply IH|exact I].
Qed.

Lemma arrowNameLoop_spec (arrow current : Node) :
  arrowNameLoop arrow current =
    match List.find (fun '(a, c) => occursBefore (Text a) (Text c) (Text arrow))
            (flat_map
               (fun a =>
                  map (fun c => (a, c))
                    (List.filter (fun c => bool_decide (Type_ c = NodeTypeIdentifier))
                       (Children a)))
               (current :: ancestorsOf current)) with
    | Some (_, c) => Text c
    | None => ""
    end.
Proof.
  induction current as [current IH] using Node_parent_ind.
  destruct current as [b op i]. cbn [ParentNode] in IH.
  cbn [arrowNameLoop ancestorsOf ParentNode flat_map].
  rewrite find_app_pairs, scanChildren_find.
  destruct (List.find _ (map _ _)) as [[a c]|]; [reflexivity|].
  destruct op as [p|]; [|reflexivity].
  rewrite never_own_parent. rewrite IH. reflexivity.
Qed.

(** C2. For the input [const add = (a, b) => a + b;] the function query
    returns exactly one node, tagged ArrowFunction, and [GetFunctionName]
    recovers [add] for it.  On every arrow-function node the recovered name
    is the text of the first direct child tagged Identifier, ancestors taken
    nearest first, whose text occurs in the ancestor's text before the arrow
    function's own text; it is empty when there is none. *)
Theorem C2_arrow_function_name :
  (exists root arrow,
     Parse (engineOn src_const_add cst_const_add) src_const_add =
       Returned (Some root, None) /\
     FindFunctions (New (Some root)) = [arrow] /\
     Type_ arrow = NodeTypeArrowFunction /\
     Text arrow = "(a, b) => a + b" /\
     GetFunctionName (Some arrow) = "add") /\
  (forall node : Node,
     Type_ node = NodeTypeArrowFunction ->
     GetFunctionName (Some node) = recoveredName node).
Proof.
  split.
  - eexists _, _. repeat split; vm_compute; reflexivity.
  - intros node Ht. unfold GetFunctionName, recoveredName, nameCandidates. rewrite Ht.
    cbn. unfold extractArrowFunctionName, Parent.
    destruct node as [b [p|] i]; cbn [ParentNode ancestorsOf]; [|reflexivity].
    apply arrowNameLoop_spec.
Qed.

Lemma C2_arrow_function_name_witness :
  let decl := rootNode
    (nodeOf NodeTypeUnknown "obj = { m: () => 4 }"
       [ nodeOf NodeTypeIdentifier "obj" [];
         nodeOf NodeTypeUnknown "=" [];
         nodeOf NodeTypeUnknown "{ m: () => 4 }"
           [ nodeOf NodeTypeUnknown "m: () => 4"
               [ nodeOf NodeTypeUnknown "m" [];
                 nodeOf NodeTypeUnknown ":" [];
                 nodeOf NodeTypeArrowFunction "() => 4" [] ] ] ]) in
  match FindFunctions (New (Some decl)) with
  | [arrow] => GetFunctionName (Some arrow) = "obj"
  | _ => False
  end.
Proof.
  intros decl.
  destruct (FindFunctions (New (Some decl))) as [|arrow [|]] eqn:E;
    try (vm_compute in E; discriminate E).
  rewrite (proj2 C2_arrow_function_name arrow).
  - vm_compute in E. injection E as <-. reflexivity.
  - vm_compute in E. injection E as <-. reflexivity.
Defined.

(** ** Traversal *)

Section Traversal.

Context {St : Type} (visitor : Node -> St -> bool * St).

Lemma visitNode_unfold (n : Node) (s : St) :
  visitNode (Some n) visitor s =
    let '(continue, s1) := visitor n s in
    if continue then visitAll visitor (Children n) s1 else s1.
Proof.
  destruct n as [b parent i]. cbn [visitNode base ParentNode slot].
  destruct b as [t c cs r]. cbn [visitFrom ChildNodes].
  set (node := {| base := _; ParentNode := parent; slot := i |}).
  destruct (visitor node s) as [[|] s1]; [|reflexivity].
  unfold visitAll, Children. cbn [base ChildNodes].
  assert (G : forall l j f s0,
    (forall k c, f k c = {| base := c; ParentNode := Some node; slot := j + k |}) ->
    (fix each (children : list BaseNode) (j : nat) (s : St) {struct children} : St :=
       match children with
       | [] => s
       | child :: rest => each rest (S j) (visitFrom visitor child (Some node) j s)
       end) l j s0 =
    fold_left (fun s child => visitNode (Some child) visitor s) (imap f l) s0).
  { induction l as [|x l IH]; intros j f s0 Hf; [reflexivity|].
    cbn [imap fold_left]. rewrite Hf, Nat.add_0_r. cbn [visitNode base ParentNode slot].
    apply IH. intros k c0. unfold compose. rewrite Hf. f_equal. lia. }
  apply G. reflexivity.
Qed.

End Traversal.

Lemma preorder_unfold (n : Node) :
  preorder n = n :: flat_map preorder (Children n).
Proof.
  destruct n as [b parent i]. unfold preorder. cbn [base ParentNode slot].
  destruct b as [t c cs r]. cbn [preorderFrom ChildNodes].
  set (node := {| base := _; ParentNode := parent; slot := i |}).
  f_equal. unfold Children. cbn [base ChildNodes].
  assert (G : forall l j f,
    (forall k c, f k c = {| base := c; ParentNode := Some node; slot := j + k |}) ->
    (fix each (children : list BaseNode) (j : nat) {struct children} : list Node :=
       match children with
       | [] => []
       | child :: rest => preorderFrom child (Some node) j ++ each rest (S j)
       end) l j =
    flat_map preorder (imap f l)).
  { induction l as [|x l IH]; intros j f Hf; [reflexivity|].
    cbn [imap flat_map]. rewrite Hf, Nat.add_0_r. unfold preorder at 1.
    cbn [base ParentNode slot]. f_equal.
    apply IH. intros k c0. unfold compose. rewrite Hf. f_equal. lia. }
  apply G. reflexivity.
Qed.

(** Induction on a reference, from its children. *)
Lemma Node_children_ind (P : Node -> Prop) :
  (forall n, Forall P (Children n) -> P n) -> forall n, P n.
Proof.
  intros step n. destruct n as [b parent i]. revert parent i.
  induction b as [t c cs r IH] using BaseNode_tree_ind. intros parent i.
  apply step. unfold Children. cbn [base ChildNodes].
  set (node := {| base := _; ParentNode := parent; slot := i |}). clearbody node.
  assert (G : forall l (f : nat -> BaseNode -> Node),
    Forall (fun c => forall parent i, P {| base := c; ParentNode := parent; slot := i |}) l ->
    (forall k c, exists j, f k c = {| base := c; ParentNode := Some node; slot := j |}) ->
    Forall P (imap f l)).
  { intros l f H. revert f. induction H as [|x l Hx _ IHl]; intros f Hf; cbn [imap].
    - constructor.
    - constructor.
      + destruct (Hf 0%nat x) as [j ->]. apply Hx.
      + apply IHl. intros k c0. unfold compose. apply Hf. }
  apply G; [exact IH|]. intros k c0. by exists k.
Qed.

Lemma Children_parent (n c : Node) : c ∈ Children n -> ParentNode c = Some n.
Proof.
  unfold Children. intros H. apply list_elem_of_lookup in H as [k H].
  rewrite list_lookup_imap in H.
  destruct (ChildNodes (base n) !! k); [|discriminate]. cbn in H. by injection H as <-.
Qed.

Lemma Children_slots (n : Node) :
  map slot (Children n) = seq 0 (length (Children n)).
Proof.
  unfold Children.
  assert (G : forall l j (f : nat -> BaseNode -> Node),
    (forall k c, slot (f k c) = (j + k)%nat) ->
    map slot (imap f l) = seq j (length (imap f l))).
  { induction l as [|x l IH]; intros j f Hf; [reflexivity|].
    cbn [imap map length seq]. rewrite Hf, Nat.add_0_r. f_equal.
    apply IH. intros k c. unfold compose. rewrite Hf. lia. }
  apply G. reflexivity.
Qed.

(** *** Paths: which references lie in which subtree *)

Lemma below_refl (c : Node) : below c c.
Proof. by exists []. Qed.

Lemma below_trans (a b c : Node) : below a b -> below b c -> below a c.
Proof.
  intros [q1 H1] [q2 H2]. exists (q2 ++ q1). by rewrite H2, H1, app_assoc.
Qed.

Lemma path_child (n c : Node) : ParentNode c = Some n -> path c = slot c :: path n.
Proof. intros H. destruct c as [b p i]. cbn in *. by subst p. Qed.

Lemma below_child (n c : Node) : ParentNode c = Some n -> below n c.
Proof. intros H. exists [slot c]. by rewrite (path_child _ _ H). Qed.

(** Two children of one node in different slots have disjoint subtrees. *)
Lemma below_siblings (n c d x : Node) :
  ParentNode c = Some n -> ParentNode d = Some n -> slot c <> slot d ->
  below c x -> below d x -> False.
Proof.
  intros Hc Hd Hne [q Hq] [r Hr].
  rewrite (path_child _ _ Hc) in Hq. rewrite (path_child _ _ Hd) in Hr.
  rewrite Hq in Hr.
  change (q ++ [slot c] ++ path n = r ++ [slot d] ++ path n) in Hr.
  rewrite !app_assoc in Hr. apply app_inv_tail in Hr.
  apply app_inj_tail in Hr as [_ E]. congruence.
Qed.

(** A node does not lie in the subtree of one of its children. *)
Lemma below_parent (n c : Node) : ParentNode c = Some n -> below c n -> False.
Proof.
  intros Hc [q Hq]. rewrite (path_child _ _ Hc) in Hq.
  apply (f_equal length) in Hq. rewrite length_app in Hq. cbn [length] in Hq. lia.
Qed.

Lemma preorder_self (n : Node) : n ∈ preorder n.
Proof. rewrite preorder_unfold. apply list_elem_of_here. Qed.

Lemma preorder_inv (n x : Node) :
  x ∈ preorder n -> x = n \/ exists c, c ∈ Children n /\ x ∈ preorder c.
Proof.
  rewrite preorder_unfold. intros H. apply elem_of_cons in H as [->|H]; [by left|].
  right. apply list_elem_of_In, in_flat_map in H as (c & Hc & Hx).
  exists c. split; by apply list_elem_of_In.
Qed.

Lemma preorder_below (n x : Node) : x ∈ preorder n -> below n x.
Proof.
  revert x. induction n as [n IH] using Node_children_ind. intros x Hx.
  apply preorder_inv in Hx as [->|(c & Hc & Hx)]; [apply below_refl|].
  rewrite Forall_forall in IH.
  eapply below_trans; [apply below_child, Children_parent, Hc|].
  by apply (IH c Hc).
Qed.

Lemma preorder_trans (n a x : Node) :
  a ∈ preorder n -> x ∈ preorder a -> x ∈ preorder n.
Proof.
  revert a x. induction n as [n IH] using Node_children_ind. intros a x Ha Hx.
  apply preorder_inv in Ha as [->|(c & Hc & Ha)]; [done|].
  rewrite Forall_forall in IH.
  rewrite preorder_unfold. apply list_elem_of_further, list_elem_of_In, in_flat_map.
  exists c. split; [by apply list_elem_of_In|].
  apply list_elem_of_In. by apply (IH c Hc a x).
Qed.

Lemma siblings_Children (n : Node) : siblings n (Children n).
Proof.
  split.
  - apply Forall_forall. intros c. apply Children_parent.
  - rewrite Children_slots. apply NoDup_ListNoDup, List.seq_NoDup.
Qed.

Lemma siblings_cons (n c : Node) (cs : list Node) :
  siblings n (c :: cs) ->
  ParentNode c = Some n /\ siblings n cs /\
  forall d, d ∈ cs -> ParentNode d = Some n /\ slot c <> slot d.
Proof.
  intros [Hp Hs]. apply Forall_cons in Hp as [Hc Hp].
  cbn [map] in Hs. apply NoDup_cons in Hs as [Hn Hs].
  split; [done|]. split; [by split|].
  intros d Hd. rewrite Forall_forall in Hp. split; [by apply Hp|].
  intros E. apply Hn. rewrite E. apply list_elem_of_In, in_map, list_elem_of_In, Hd.
Qed.

Lemma in_flat_preorder (cs : list Node) (x : Node) :
  x ∈ flat_map preorder cs <-> exists d, d ∈ cs /\ x ∈ preorder d.
Proof.
  rewrite list_elem_of_In, in_flat_map. split; intros (d & Hd & Hx); exists d;
    (split; by apply list_elem_of_In).
Qed.

(** Distinct siblings have disjoint listings. *)
Lemma siblings_disjoint (n c : Node) (cs : list Node) (x : Node) :
  siblings n (c :: cs) -> x ∈ preorder c -> x ∈ flat_map preorder cs -> False.
Proof.
  intros Hs Hx Hx'. apply siblings_cons in Hs as (Hc & _ & Hd).
  apply in_flat_preorder in Hx' as (d & Hin & Hxd).
  destruct (Hd d Hin) as [Hpd Hne].
  eapply (below_siblings n c d x); eauto using preorder_below.
Qed.

Lemma preorder_NoDup (n : Node) : NoDup (preorder n).
Proof.
  induction n as [n IH] using Node_children_ind.
  rewrite preorder_unfold. apply NoDup_cons. split.
  - intros H. apply in_flat_preorder in H as (d & Hd & Hn).
    eapply below_parent; [apply Children_parent, Hd|by apply preorder_below].
  - pose proof (siblings_Children n) as Hs. revert IH Hs.
    generalize (Children n). intros cs IH. induction IH as [|c cs Hc _ IHcs]; intros Hs.
    + constructor.
    + cbn [flat_map]. apply NoDup_app. split; [exact Hc|]. split.
      * intros x Hx Hx'. by eapply siblings_disjoint.
      * apply IHcs. by apply siblings_cons in Hs as (_ & ? & _).
Qed.

Section Logged.

Context {St : Type} (visitor : Node -> St -> bool * St).

Lemma traceAll_nil (s : St) : traceAll visitor [] s = [].
Proof. reflexivity. Qed.

Lemma logged_visitAll (cs : list Node) :
  Forall (fun c => forall s l,
            visitNode (Some c) (logged visitor) (s, l) =
              (visitNode (Some c) visitor s, l ++ trace visitor c s)) cs ->
  forall s l,
    visitAll (logged visitor) cs (s, l) =
      (visitAll visitor cs s, l ++ traceAll visitor cs s).
Proof.
  unfold visitAll, traceAll.
  induction 1 as [|c cs Hc _ IH]; intros s l; cbn [fold_left].
  - by rewrite app_nil_r.
  - rewrite Hc, IH. rewrite (Hc s []), (IH _ ([] ++ _)). cbn [snd app].
    by rewrite <- List.app_assoc.
Qed.

Lemma logged_visitNode (n : Node) (s : St) (l : list (Node * bool)) :
  visitNode (Some n) (logged visitor) (s, l) =
    (visitNode (Some n) visitor s, l ++ trace visitor n s).
Proof.
  revert s l. induction n as [n IH] using Node_children_ind. intros s l.
  unfold trace. rewrite !(visitNode_unfold (logged visitor)), visitNode_unfold.
  unfold logged at 1 3. cbn [fst snd].
  destruct (visitor n s) as [[|] s1]; [|reflexivity].
  pose proof (logged_visitAll _ IH) as H. rewrite (H s1 (l ++ _)), (H s1 ([] ++ _)).
  cbn [snd app]. by rewrite <- List.app_assoc.
Qed.

Lemma traceAll_cons (c : Node) (cs : list Node) (s : St) :
  traceAll visitor (c :: cs) s =
    trace visitor c s ++ traceAll visitor cs (visitNode (Some c) visitor s).
Proof.
  assert (H : Forall (fun c => forall s l,
            visitNode (Some c) (logged visitor) (s, l) =
              (visitNode (Some c) visitor s, l ++ trace visitor c s)) cs)
    by (apply Forall_forall; intros; apply logged_visitNode).
  pose proof (logged_visitAll cs H) as G. unfold visitAll in G.
  unfold traceAll. cbn [fold_left]. rewrite logged_visitNode, G.
  reflexivity.
Qed.

Lemma trace_unfold (n : Node) (s : St) :
  trace visitor n s =
    (n, fst (visitor n s)) ::
      if fst (visitor n s) then traceAll visitor (Children n) (snd (visitor n s))
      else [].
Proof.
  unfold trace. rewrite visitNode_unfold. unfold logged at 1. cbn [fst snd].
  destruct (visitor n s) as [[|] s1]; [|reflexivity]. cbn [fst snd].
  assert (H : Forall (fun c => forall s l,
            visitNode (Some c) (logged visitor) (s, l) =
              (visitNode (Some c) visitor s, l ++ trace visitor c s)) (Children n))
    by (apply Forall_forall; intros; apply logged_visitNode).
  rewrite (logged_visitAll _ H s1 ([] ++ _)). reflexivity.
Qed.

(** The visited nodes, in the order of the calls, are a subsequence of the
    pre-order listing. *)
Lemma trace_sublist (n : Node) (s : St) :
  sublist (trace visitor n s).*1 (preorder n).
Proof.
  revert s. induction n as [n IH] using Node_children_ind. intros s.
  rewrite trace_unfold, preorder_unfold. cbn [fmap list_fmap fst].
  apply sublist_skip.
  destruct (fst (visitor n s)); [|apply sublist_nil_l].
  generalize (snd (visitor n s)). induction IH as [|c cs Hc _ IHcs]; intros s1.
  - constructor.
  - rewrite traceAll_cons, fmap_app. cbn [flat_map]. by apply sublist_app.
Qed.

Lemma trace_in_preorder (n x : Node) (s : St) :
  x ∈ (trace visitor n s).*1 -> x ∈ preorder n.
Proof. intros H. eapply sublist_subseteq; [apply trace_sublist|exact H]. Qed.

Lemma traceAll_in_preorder (cs : list Node) (x : Node) (s : St) :
  x ∈ (traceAll visitor cs s).*1 -> x ∈ flat_map preorder cs.
Proof.
  revert s. induction cs as [|c cs IH]; intros s.
  - rewrite traceAll_nil. by intros ?%elem_of_nil.
  - rewrite traceAll_cons, fmap_app, elem_of_app. cbn [flat_map].
    intros [H|H]; apply elem_of_app; [left; by eapply trace_in_preorder|right; eauto].
Qed.

End Logged.

Section Skipping.

Context {St : Type} (visitor : Node -> St -> bool * St).

Lemma logged_entry (l : list (Node * bool)) (a : Node) (c : bool) :
  (a, c) ∈ l -> a ∈ l.*1.
Proof. intros H. by apply (list_elem_of_fmap_2 fst) in H. Qed.

(** Every node of the subtree is visited, or lies strictly inside the
    subtree of a visited node that answered stop. *)
Lemma trace_complete (n : Node) (s : St) (x : Node) :
  x ∈ preorder n ->
  x ∈ (trace visitor n s).*1 \/
  exists a, (a, false) ∈ trace visitor n s /\ x ∈ preorder a /\ x <> a.
Proof.
  revert s x. induction n as [n IH] using Node_children_ind. intros s x Hx.
  rewrite trace_unfold.
  destruct (preorder_inv _ _ Hx) as [->|(c & Hc & Hxc)]; [left; apply list_elem_of_here|].
  destruct (fst (visitor n s)) eqn:E.
  - assert (G : x ∈ (traceAll visitor (Children n) (snd (visitor n s))).*1 \/
                exists a, (a, false) ∈ traceAll visitor (Children n) (snd (visitor n s)) /\
                          x ∈ preorder a /\ x <> a).
    { generalize (snd (visitor n s)). revert Hc.
      induction IH as [|c0 cs Hc0 _ IHcs]; intros Hc s1.
      - by apply elem_of_nil in Hc.
      - rewrite traceAll_cons, fmap_app.
        apply elem_of_cons in Hc as [<-|Hc].
        + destruct (Hc0 s1 x Hxc) as [H|(a & Ha & H)].
          * left. apply elem_of_app. by left.
          * right. exists a. split; [apply elem_of_app; by left|exact H].
        + destruct (IHcs Hc (visitNode (Some c0) visitor s1)) as [H|(a & Ha & H)].
          * left. apply elem_of_app. by right.
          * right. exists a. split; [apply elem_of_app; by right|exact H]. }
    destruct G as [H|(a & Ha & H)].
    + left. by apply list_elem_of_further.
    + right. exists a. split; [by apply list_elem_of_further|exact H].
  - right. exists n. split; [apply list_elem_of_here|]. split; [exact Hx|].
    intros ->. eapply below_parent; [apply Children_parent, Hc|].
    by apply preorder_below.
Qed.

Lemma traceAll_skips (n : Node) (cs : list Node) :
  siblings n cs ->
  Forall (fun c => forall s a x,
            (a, false) ∈ trace visitor c s -> x ∈ preorder a -> x <> a ->
            x ∉ (trace visitor c s).*1) cs ->
  forall s a x,
    (a, false) ∈ traceAll visitor cs s -> x ∈ preorder a -> x <> a ->
    x ∉ (traceAll visitor cs s).*1.
Proof.
  intros Hs IH. revert Hs. induction IH as [|c cs Hc _ IHcs]; intros Hs s a x Ha Hx Hne.
  - by apply elem_of_nil in Ha.
  - rewrite traceAll_cons in Ha |- *. rewrite fmap_app.
    pose proof Hs as (_ & Hs' & _)%siblings_cons.
    apply elem_of_app in Ha as [Ha|Ha]; apply not_elem_of_app; split.
    + by eapply Hc.
    + intros Hx'%traceAll_in_preorder.
      eapply (siblings_disjoint n c cs x); [done| |done].
      eapply preorder_trans; [|exact Hx].
      eapply trace_in_preorder, logged_entry, Ha.
    + intros Hx'%trace_in_preorder.
      eapply (siblings_disjoint n c cs x); [done|done|].
      apply logged_entry, traceAll_in_preorder, in_flat_preorder in Ha as (d & Hd & Had).
      apply in_flat_preorder. exists d. split; [done|]. by eapply preorder_trans.
    + by eapply IHcs.
Qed.

(** Nothing strictly inside the subtree of a node that answered stop is
    visited. *)
Lemma trace_skips (n : Node) (s : St) (a x : Node) :
  (a, false) ∈ trace visitor n s -> x ∈ preorder a -> x <> a ->
  x ∉ (trace visitor n s).*1.
Proof.
  revert s a x. induction n as [n IH] using Node_children_ind. intros s a x.
  rewrite trace_unfold. destruct (fst (visitor n s)) eqn:E.
  - intros Ha Hx Hne. apply elem_of_cons in Ha as [[=]|Ha].
    cbn [fmap list_fmap fst]. apply not_elem_of_cons. split.
    + intros ->.
      apply logged_entry, traceAll_in_preorder, in_flat_preorder in Ha as (d & Hd & Had).
      eapply below_parent; [apply Children_parent, Hd|].
      apply preorder_below. by eapply preorder_trans.
    + eapply traceAll_skips; eauto using siblings_Children.
  - intros Ha Hx Hne. apply list_elem_of_singleton in Ha as [= ->].
    cbn. by apply not_elem_of_cons; split; [|apply not_elem_of_nil].
Qed.

Lemma trace_NoDup (n : Node) (s : St) : NoDup (trace visitor n s).*1.
Proof. eapply sublist_NoDup; [apply preorder_NoDup|apply trace_sublist]. Qed.

(** When no invocation answers stop, the whole subtree is visited, in
    pre-order. *)
Lemma trace_all_continue (n : Node) (s : St) :
  Forall (fun e => e.2 = true) (trace visitor n s) ->
  (trace visitor n s).*1 = preorder n.
Proof.
  revert s. induction n as [n IH] using Node_children_ind. intros s.
  rewrite trace_unfold, preorder_unfold. intros H.
  apply Forall_cons in H as [E H]. cbn [snd] in E. rewrite E in *.
  cbn [fmap list_fmap fst]. f_equal.
  revert H. generalize (snd (visitor n s)).
  induction IH as [|c cs Hc _ IHcs]; intros s1 H; [reflexivity|].
  rewrite traceAll_cons in H |- *. apply Forall_app in H as [H1 H2].
  rewrite fmap_app. cbn [flat_map]. f_equal; [by apply Hc|by apply IHcs].
Qed.

End Skipping.

(** [FindNodes] collects the nodes satisfying the predicate from the whole
    tree, in pre-order. *)
Lemma FindNodes_filter (r : Node) (predicate : Node -> bool) :
  FindNodes (New (Some r)) predicate = List.filter predicate (preorder r).
Proof.
  unfold FindNodes, Visit. cbn [root].
  set (v := fun (node : Node) (results : list Node) =>
              (true, if predicate node then results ++ [node] else results)).
  assert (G : forall n acc,
    visitNode (Some n) v acc = acc ++ List.filter predicate (preorder n)).
  { induction n as [n IH] using Node_children_ind. intros acc.
    rewrite visitNode_unfold, preorder_unfold. cbn [v List.filter].
    assert (L : forall acc0,
      visitAll v (Children n) acc0 =
        acc0 ++ List.filter predicate (flat_map preorder (Children n))).
    { unfold visitAll. induction IH as [|c cs Hc _ IHcs]; intros acc0; cbn [fold_left flat_map].
      - by rewrite app_nil_r.
      - rewrite Hc, IHcs, List.filter_app. by rewrite <- List.app_assoc. }
    rewrite L. destruct (predicate n); [|reflexivity].
    by rewrite <- List.app_assoc. }
  apply (G r []).
Qed.

(** C5. [Visit] is a depth-first pre-order traversal.  For every tree, every
    visitor (whose answers may depend on the state it has accumulated) and
    every initial state: on a nil root the visitor is never called and the
    state is unchanged; on a root [r] the calls, in order, start at [r],
    follow the pre-order listing of the tree and touch no node twice; when
    a call answers stop, exactly the nodes strictly inside that node's
    subtree are skipped, so every node outside the subtrees of stopped nodes
    (siblings at every level included) is visited; with no stop answer the
    whole listing is visited. *)
Theorem C5_visit_preorder_local_stop {St : Type}
    (visitor : Node -> St -> bool * St) (s : St) :
  Visit (New None) (logged visitor) (s, []) = (s, []) /\
  (forall n : Node, preorder n = n :: flat_map preorder (Children n)) /\
  forall r : Node,
    let result := Visit (New (Some r)) (logged visitor) (s, []) in
    let log := snd result in
    fst result = Visit (New (Some r)) visitor s /\
    (exists rest, log = (r, fst (visitor r s)) :: rest) /\
    sublist log.*1 (preorder r) /\
    NoDup log.*1 /\
    (Forall (fun e => e.2 = true) log -> log.*1 = preorder r) /\
    (forall a x, (a, false) ∈ log -> x ∈ preorder a -> x <> a -> x ∉ log.*1) /\
    (forall x, x ∈ preorder r ->
       x ∈ log.*1 \/ exists a, (a, false) ∈ log /\ x ∈ preorder a /\ x <> a).
Proof.
  split; [reflexivity|]. split; [apply preorder_unfold|].
  intros r result log. subst result log. unfold Visit. cbn [root].
  rewrite logged_visitNode. cbn [fst snd app].
  split; [reflexivity|]. split; [rewrite trace_unfold; by eexists|].
  split; [apply trace_sublist|]. split; [apply trace_NoDup|].
  split; [apply trace_all_continue|]. split; [apply trace_skips|apply trace_complete].
Qed.

Lemma C5_visit_preorder_local_stop_witness :
  let r := rootNode (nodeOf NodeTypeFunction "R"
             [ nodeOf NodeTypeIdentifier "A" [nodeOf NodeTypeLiteral "A1" []];
               nodeOf NodeTypeIdentifier "B" [] ]) in
  let a := {| base := nodeOf NodeTypeIdentifier "A" [nodeOf NodeTypeLiteral "A1" []];
              ParentNode := Some r; slot := 0 |} in
  let a1 := {| base := nodeOf NodeTypeLiteral "A1" []; ParentNode := Some a; slot := 0 |} in
  let b := {| base := nodeOf NodeTypeIdentifier "B" []; ParentNode := Some r; slot := 1 |} in
  let stopAtA := (fun (n : Node) (calls : nat) =>
                    (negb (String.eqb (Text n) "A"), S calls)) in
  snd (Visit (New (Some r)) (logged stopAtA) (0%nat, [])) =
    [(r, true); (a, false); (b, true)] /\
  (a1 ∉ (snd (Visit (New (Some r)) (logged stopAtA) (0%nat, []))).*1) /\
  Visit (New (Some r)) stopAtA 0%nat = 3%nat.
Proof.
  intros r a a1 b stopAtA.
  destruct (C5_visit_preorder_local_stop stopAtA 0%nat) as (_ & _ & H).
  destruct (H r) as (Hst & _ & _ & _ & _ & Hskip & _).
  split; [reflexivity|]. split.
  - apply (Hskip a a1).
    + apply list_elem_of_further, list_elem_of_here.
    + apply list_elem_of_further, list_elem_of_here.
    + discriminate.
  - rewrite <- Hst. reflexivity.
Defined.

(** ** Further properties: queries *)

Lemma CountNodes_filter (r : Node) (predicate : Node -> bool) :
  CountNodes (New (Some r)) predicate = length (List.filter predicate (preorder r)).
Proof.
  unfold CountNodes, Visit. cbn [root].
  set (v := fun (node : Node) (count : nat) =>
              (true, if predicate node then S count else count)).
  assert (G : forall n k,
    visitNode (Some n) v k = (k + length (List.filter predicate (preorder n)))%nat).
  { induction n as [n IH] using Node_children_ind. intros k.
    rewrite visitNode_unfold, preorder_unfold. cbn [v List.filter].
    assert (L : forall k0,
      visitAll v (Children n) k0 =
        (k0 + length (List.filter predicate (flat_map preorder (Children n))))%nat).
    { unfold visitAll. induction IH as [|c cs Hc _ IHcs]; intros k0; cbn [fold_left flat_map].
      - cbn. lia.
      - rewrite Hc, IHcs, List.filter_app, length_app. lia. }
    rewrite L. destruct (predicate n); cbn [length]; lia. }
  apply (G r 0%nat).
Qed.

Lemma filter_elem_of {A : Type} (f : A -> bool) (l : list A) (x : A) :
  x ∈ List.filter f l <-> x ∈ l /\ f x = true.
Proof. rewrite !list_elem_of_In. apply List.filter_In. Qed.

Lemma filter_NoDup {A : Type} (f : A -> bool) (l : list A) :
  NoDup l -> NoDup (List.filter f l).
Proof.
  induction 1 as [|x l Hx _ IH]; cbn [List.filter]; [constructor|].
  destruct (f x); [|exact IH]. constructor; [|exact IH].
  rewrite filter_elem_of. tauto.
Qed.

(** X1. [FindNodes] prunes nothing: on a root it returns exactly the nodes
    of the tree that satisfy the predicate, each once, in pre-order; on a
    nil root it returns nothing. *)
Theorem X1_FindNodes_complete (predicate : Node -> bool) :
  FindNodes (New None) predicate = [] /\
  forall r : Node,
    FindNodes (New (Some r)) predicate = List.filter predicate (preorder r) /\
    NoDup (FindNodes (New (Some r)) predicate) /\
    (forall x, x ∈ FindNodes (New (Some r)) predicate <->
               x ∈ preorder r /\ predicate x = true).
Proof.
  split; [reflexivity|]. intros r. rewrite FindNodes_filter.
  split; [reflexivity|]. split.
  - apply filter_NoDup, preorder_NoDup.
  - intros x. apply filter_elem_of.
Qed.

(** X2. [CountNodes] is the length of what [FindNodes] returns for the same
    predicate, and [CountNodesByType] the length of [FindNodesByType], on
    every analyzer, nil root included. *)
Theorem X2_CountNodes_is_length_FindNodes (a : Analyzer) (predicate : Node -> bool)
    (nodeType : NodeType) :
  CountNodes a predicate = length (FindNodes a predicate) /\
  CountNodesByType a nodeType = length (FindNodesByType a nodeType).
Proof.
  destruct a as [[r|]]; [|split; reflexivity].
  unfold CountNodesByType, FindNodesByType.
  rewrite !CountNodes_filter, !FindNodes_filter. split; reflexivity.
Qed.

Lemma filter_length_or {A : Type} (f g : A -> bool) (l : list A) :
  (forall x, f x = true -> g x = true -> False) ->
  length (List.filter (fun x => f x || g x) l) =
    (length (List.filter f l) + length (List.filter g l))%nat.
Proof.
  intros Hd. induction l as [|x l IH]; [reflexivity|]. cbn [List.filter].
  destruct (f x) eqn:Ef, (g x) eqn:Eg; cbn [orb length]; try lia.
  exfalso. eauto.
Qed.

(** X3. The function query returns as many nodes as there are nodes tagged
    Function plus nodes tagged ArrowFunction, and none of them is returned
    by the method query. *)
Theorem X3_FindFunctions_counts (a : Analyzer) :
  length (FindFunctions a) =
    (CountNodesByType a NodeTypeFunction + CountNodesByType a NodeTypeArrowFunction)%nat /\
  (forall x, x ∈ FindFunctions a -> x ∉ FindMethods a).
Proof.
  destruct a as [[r|]].
  2: { split; [reflexivity|]. intros x H. by apply elem_of_nil in H. }
  unfold FindFunctions, FindMethods, FindNodesByType, CountNodesByType.
  rewrite !CountNodes_filter, !FindNodes_filter. split.
  - apply (filter_length_or
      (fun x => bool_decide (Type_ x = NodeTypeFunction))
      (fun x => bool_decide (Type_ x = NodeTypeArrowFunction))).
    intros x H1%bool_decide_eq_true H2%bool_decide_eq_true. congruence.
  - intros x [_ H1]%filter_elem_of [_ H2]%filter_elem_of.
    apply bool_decide_eq_true in H2.
    apply orb_true_iff in H1 as [H1|H1]; apply bool_decide_eq_true in H1; congruence.
Qed.

Lemma Children_base (n : Node) : map base (Children n) = ChildNodes (base n).
Proof.
  unfold Children.
  assert (G : forall l (f : nat -> BaseNode -> Node),
    (forall k c, base (f k c) = c) -> map base (imap f l) = l).
  { induction l as [|x l IH]; intros f Hf; [reflexivity|].
    cbn [imap map]. rewrite Hf. f_equal. apply IH. intros k c. apply Hf. }
  apply G. reflexivity.
Qed.

Lemma nodes_unfold (b : BaseNode) : nodes b = b :: flat_map nodes (ChildNodes b).
Proof. by destruct b. Qed.

(** The pre-order listing of references and the listing of node data go
    over the same nodes in the same order. *)
Lemma preorder_base (n : Node) : map base (preorder n) = nodes (base n).
Proof.
  induction n as [n IH] using Node_children_ind.
  rewrite preorder_unfold, nodes_unfold, <- Children_base. cbn [map]. f_equal.
  induction IH as [|c cs Hc _ IHcs]; [reflexivity|].
  cbn [flat_map map]. by rewrite map_app, Hc, IHcs.
Qed.

Lemma filter_length_le {A : Type} (f g : A -> bool) (l : list A) :
  (forall x, f x = true -> g x = true) ->
  (length (List.filter f l) <= length (List.filter g l))%nat.
Proof.
  intros Hfg. induction l as [|x l IH]; [done|]. cbn [List.filter].
  destruct (f x) eqn:Ef.
  - rewrite (Hfg x Ef). cbn [length]. lia.
  - destruct (g x); cbn [length]; lia.
Qed.

Lemma filter_map_length {A B : Type} (f : B -> bool) (h : A -> B) (l : list A) :
  length (List.filter f (map h l)) = length (List.filter (fun x => f (h x)) l).
Proof.
  induction l as [|x l IH]; [reflexivity|]. cbn [map List.filter].
  destruct (f (h x)); cbn [length]; lia.
Qed.

Lemma HasParameters_child (n : Node) :
  HasParameters (Some n) = true <->
  exists c, c ∈ Children n /\ Type_ c = NodeTypeParameter.
Proof.
  unfold HasParameters. induction (Children n) as [|c cs IH].
  - split; [discriminate|]. intros (c & Hc & _). by apply elem_of_nil in Hc.
  - destruct (decide (Type_ c = NodeTypeParameter)) as [E|E].
    + split; [|done]. intros _. exists c. split; [apply list_elem_of_here|done].
    + rewrite IH. split.
      * intros (d & Hd & Ht). exists d. split; [by apply list_elem_of_further|done].
      * intros (d & Hd & Ht). apply elem_of_cons in Hd as [->|Hd]; [done|]. eauto.
Qed.

(** X4. [CountParameters] never exceeds the number of nodes tagged
    Parameter in the subtree, and when [HasParameters] holds there is at
    least one such node; but [HasParameters] does not make the count
    positive, since the parameter-list container is tagged Parameter and
    never counted. *)
Theorem X4_parameters_bounds (n : Node) :
  (CountParameters (Some n) <= CountNodesByType (New (Some n)) NodeTypeParameter)%nat /\
  (HasParameters (Some n) = true ->
   (1 <= CountNodesByType (New (Some n)) NodeTypeParameter)%nat) /\
  (Forall (fun m => NodeType_ m = NodeTypeParameter ->
                    strings.HasPrefix (strings.TrimSpace (Content m)) "(" = true)
     (nodes (base n)) ->
   CountParameters (Some n) = 0%nat).
Proof.
  unfold CountParameters, CountNodesByType.
  rewrite countInNode_spec, CountNodes_filter, <- preorder_base, filter_map_length.
  cbn [Nat.add]. split; [|split].
  - apply filter_length_le. intros x H. unfold countedParameter in H.
    by apply andb_true_iff in H as [[H _]%andb_true_iff _].
  - intros (c & Hc & Ht)%HasParameters_child.
    assert (Hin : c ∈ List.filter (fun node => bool_decide (Type_ node = NodeTypeParameter))
                      (preorder n)).
    { apply filter_elem_of. split; [|by apply bool_decide_eq_true].
      rewrite preorder_unfold. apply list_elem_of_further, in_flat_preorder.
      exists c. split; [done|apply preorder_self]. }
    destruct (List.filter _ (preorder n)); [by apply elem_of_nil in Hin|cbn; lia].
  - rewrite <- filter_map_length, preorder_base.
    generalize (nodes (base n)). intros l H.
    induction H as [|m l Hm _ IH]; [reflexivity|]. cbn [List.filter].
    unfold countedParameter at 1.
    destruct (decide (NodeType_ m = NodeTypeParameter)) as [E|E].
    + rewrite (Hm E), andb_false_r. exact IH.
    + rewrite bool_decide_eq_false_2 by done. exact IH.
Qed.

Lemma X4_parameters_bounds_witness :
  let fn := rootNode (nodeOf NodeTypeFunction "function f() {}"
              [nodeOf NodeTypeIdentifier "f" [];
               nodeOf NodeTypeParameter "()" []]) in
  HasParameters (Some fn) = true /\
  CountParameters (Some fn) = 0%nat /\
  (1 <= CountNodesByType (New (Some fn)) NodeTypeParameter)%nat.
Proof.
  intros fn. destruct (X4_parameters_bounds fn) as (_ & H1 & H0).
  split; [reflexivity|]. split.
  - apply H0. repeat constructor; discriminate.
  - apply H1. reflexivity.
Defined.

Lemma CountProperties_filter (n : Node) :
  CountProperties (Some n) =
    length (List.filter (fun c => bool_decide (Type_ c = NodeTypeProperty)) (Children n)).
Proof.
  unfold CountProperties.
  assert (G : forall l k,
    fold_left (fun count child =>
                 if decide (Type_ child = NodeTypeProperty) then S count else count) l k =
    (k + length (List.filter (fun c => bool_decide (Type_ c = NodeTypeProperty)) l))%nat).
  { induction l as [|c l IH]; intros k; cbn [fold_left List.filter]; [cbn; lia|].
    rewrite IH. destruct (decide (Type_ c = NodeTypeProperty)).
    - rewrite bool_decide_eq_true_2 by done. cbn [length]. lia.
    - rewrite bool_decide_eq_false_2 by done. lia. }
  apply (G _ 0%nat).
Qed.

Lemma filter_children_le (f : Node -> bool) (cs : list Node) :
  (length (List.filter f cs) <= length (List.filter f (flat_map preorder cs)))%nat.
Proof.
  induction cs as [|c cs IH]; [done|]. cbn [List.filter flat_map].
  rewrite List.filter_app, length_app, (preorder_unfold c). cbn [List.filter].
  destruct (f c); cbn [length]; lia.
Qed.

(** X5. [CountProperties] counts direct children only: it is the number of
    children tagged Property, at most the number of children, and at most
    the number of Property nodes strictly below the node in the whole
    subtree; a nil node counts 0. *)
Theorem X5_CountProperties_direct (n : Node) :
  CountProperties (Some n) =
    length (List.filter (fun c => bool_decide (Type_ c = NodeTypeProperty)) (Children n)) /\
  (CountProperties (Some n) <= length (Children n))%nat /\
  (CountProperties (Some n) <=
     length (List.filter (fun c => bool_decide (Type_ c = NodeTypeProperty))
               (flat_map preorder (Children n))))%nat /\
  (CountProperties (Some n) <= CountNodesByType (New (Some n)) NodeTypeProperty)%nat /\
  CountProperties None = 0%nat.
Proof.
  rewrite CountProperties_filter. split; [reflexivity|]. split; [apply List.filter_length_le|].
  split; [apply filter_children_le|]. split; [|reflexivity].
  unfold CountNodesByType. rewrite CountNodes_filter, preorder_unfold. cbn [List.filter].
  pose proof (filter_children_le
    (fun c => bool_decide (Type_ c = NodeTypeProperty)) (Children n)).
  destruct (bool_decide (Type_ n = NodeTypeProperty)); cbn [length]; lia.
Qed.

(** ** Further properties: export detection and names *)

Lemma isExportedLoop_spec (k : nat) (n : Node) :
  isExportedLoop k (Parent n) = existsb isExportNode (take k (ancestorsOf n)).
Proof.
  revert n. induction k as [|k IH]; intros n.
  - by destruct (Parent n).
  - destruct n as [b [p|] i]; cbn [isExportedLoop Parent ParentNode ancestorsOf take existsb];
      [|reflexivity].
    destruct (isExportNode p); [reflexivity|]. apply (IH p).
Qed.

Lemma IsExported_existsb (n : Node) :
  IsExported (Some n) = existsb isExportNode (n :: take 3 (ancestorsOf n)).
Proof.
  unfold IsExported. cbn [existsb]. rewrite isExportedLoop_spec.
  by destruct (isExportNode n).
Qed.

Lemma IsExported_intro (n : Node) :
  (exists a, a ∈ n :: take 3 (ancestorsOf n) /\ isExportNode a = true) ->
  IsExported (Some n) = true.
Proof.
  intros (a & Ha & Hx). rewrite IsExported_existsb. apply existsb_exists.
  exists a. split; [by apply list_elem_of_In|done].
Qed.

(** X6. [IsExported] looks at the node and at its three nearest ancestors,
    and no further: it holds exactly when the trimmed text of one of these
    starts with [export ].  An export keyword carried only by an ancestor
    four or more levels up is not seen. *)
Theorem X6_IsExported_three_levels (n : Node) :
  (IsExported (Some n) = true <->
   exists a, a ∈ n :: take 3 (ancestorsOf n) /\ isExportNode a = true) /\
  IsExported (Some n) = existsb isExportNode (n :: take 3 (ancestorsOf n)) /\
  IsExported None = false.
Proof.
  pose proof (IsExported_existsb n) as E.
  split; [|split; [exact E|reflexivity]].
  rewrite E, existsb_exists. split; intros (a & Ha & Hx); exists a;
    (split; [by apply list_elem_of_In|done]).
Qed.

(** X7. Every direct child of a node whose trimmed text starts with
    [export ] is reported exported, whatever the child's own text: a file
    that begins with an export statement makes all its top-level nodes (and
    the nodes up to two levels below them) exported. *)
Theorem X7_IsExported_inherits (r c : Node) :
  isExportNode r = true ->
  (c ∈ Children r -> IsExported (Some c) = true) /\
  (forall d, c ∈ Children r -> d ∈ Children c -> IsExported (Some d) = true) /\
  (forall d e, c ∈ Children r -> d ∈ Children c -> e ∈ Children d ->
     IsExported (Some e) = true).
Proof.
  intros Hr.
  assert (G : forall x, r ∈ x :: take 3 (ancestorsOf x) -> IsExported (Some x) = true).
  { intros x Hx. apply (IsExported_intro x). exists r. by split. }
  repeat split.
  - intros Hc%Children_parent. apply G. destruct c as [b p i]. cbn in *. subst p.
    cbn. apply list_elem_of_further, list_elem_of_here.
  - intros d Hc%Children_parent Hd%Children_parent. apply G.
    destruct d as [b p i]. cbn in *. subst p. destruct c as [b' p' i']. cbn in *. subst p'.
    cbn. apply list_elem_of_further, list_elem_of_further, list_elem_of_here.
  - intros d e Hc%Children_parent Hd%Children_parent He%Children_parent. apply G.
    destruct e as [b p i]. cbn in *. subst p. destruct d as [b' p' i']. cbn in *. subst p'.
    destruct c as [b2 p2 i2]. cbn in *. subst p2.
    cbn. do 3 apply list_elem_of_further. apply list_elem_of_here.
Qed.

Lemma X7_IsExported_inherits_witness :
  let text := "export const a = 1; function f() {}" in
  let program := rootNode (nodeOf NodeTypeUnknown text
                   [ nodeOf NodeTypeUnknown "export const a = 1;" [];
                     nodeOf NodeTypeFunction "function f() {}" [] ]) in
  let f := {| base := nodeOf NodeTypeFunction "function f() {}" [];
              ParentNode := Some program; slot := 1 |} in
  IsExported (Some f) = true /\ function_v1.IsExported (Some f) = false.
Proof.
  intros text program f. split; [|reflexivity].
  assert (Hr : isExportNode program = true) by reflexivity.
  destruct (X7_IsExported_inherits program f Hr) as (H & _).
  apply H. apply list_elem_of_further, list_elem_of_here.
Defined.

(** X8. The current [IsExported] extends the earlier version, which tested
    the node's own text only: whenever the earlier version answers true so
    does the current one, and on a node without parent they agree. *)
Theorem X8_IsExported_extends_earlier_version (node : option Node) :
  (function_v1.IsExported node = true -> IsExported node = true) /\
  (forall n, node = Some n -> Parent n = None ->
     IsExported node = function_v1.IsExported node).
Proof.
  split.
  - destruct node as [n|]; [|done]. unfold function_v1.IsExported, IsExported, isExportNode.
    by intros ->.
  - intros n -> Hp. unfold function_v1.IsExported, IsExported, isExportNode.
    rewrite Hp. by destruct (strings.HasPrefix _ _).
Qed.

Lemma X8_IsExported_extends_earlier_version_witness :
  let n := rootNode (nodeOf NodeTypeFunction "export function f() {}" []) in
  IsExported (Some n) = true /\ IsExported (Some n) = function_v1.IsExported (Some n).
Proof.
  intros n. destruct (X8_IsExported_extends_earlier_version (Some n)) as [H1 H2].
  split; [apply H1; reflexivity|apply (H2 n); reflexivity].
Defined.

Lemma findIdentifier_first (l : list Node) :
  (fix loop (children : list Node) : string :=
     match children with
     | [] => ""
     | child :: rest =>
         if decide (Type_ child = NodeTypeIdentifier) then Text child else loop rest
     end) l =
  match firstIdentifier l with Some c => Text c | None => "" end.
Proof.
  induction l as [|c l IH]; [reflexivity|]. cbn [firstIdentifier].
  destruct (decide (Type_ c = NodeTypeIdentifier)); [reflexivity|exact IH].
Qed.

Lemma firstIdentifier_Some (l : list Node) (c : Node) :
  firstIdentifier l = Some c ->
  exists l1 l2, l = l1 ++ c :: l2 /\ Type_ c = NodeTypeIdentifier /\
                Forall (fun d => Type_ d <> NodeTypeIdentifier) l1.
Proof.
  induction l as [|d l IH]; [discriminate|]. cbn [firstIdentifier].
  destruct (decide (Type_ d = NodeTypeIdentifier)) as [E|E].
  - intros [= <-]. exists [], l. repeat split; [done|constructor].
  - intros (l1 & l2 & -> & Hc & Hl1)%IH. exists (d :: l1), l2.
    repeat split; [done|by constructor].
Qed.

Lemma firstIdentifier_None (l : list Node) :
  firstIdentifier l = None <-> Forall (fun d => Type_ d <> NodeTypeIdentifier) l.
Proof.
  induction l as [|d l IH]; cbn [firstIdentifier]; [split; [constructor|done]|].
  destruct (decide (Type_ d = NodeTypeIdentifier)) as [E|E].
  - split; [discriminate|]. by intros [? _]%Forall_cons.
  - rewrite IH. split; [by constructor|by intros [_ ?]%Forall_cons].
Qed.

(** X9. All the name getters that look for an identifier among the direct
    children agree: on a node that has a child tagged Identifier,
    [extractFunctionName], [extractClassName], the earlier version of
    [GetFunctionName], and, on a node of the tag each accepts,
    [GetFunctionName], [GetInterfaceName] and [GetTypeAliasName], all return
    the text of the first such child in child order. *)
Theorem X9_identifier_child_names (n c : Node) (before after : list Node) :
  Children n = before ++ c :: after ->
  Type_ c = NodeTypeIdentifier ->
  Forall (fun d => Type_ d <> NodeTypeIdentifier) before ->
  extractFunctionName n = Text c /\
  extractClassName n = Text c /\
  function_v1.GetFunctionName (Some n) = Text c /\
  (Type_ n = NodeTypeFunction \/ Type_ n = NodeTypeMethod ->
   GetFunctionName (Some n) = Text c) /\
  (Type_ n = NodeTypeInterface -> GetInterfaceName (Some n) = Text c) /\
  (Type_ n = NodeTypeTypeAlias -> GetTypeAliasName (Some n) = Text c).
Proof.
  intros Hch Hc Hb.
  assert (F : firstIdentifier (Children n) = Some c).
  { rewrite Hch. clear Hch. induction Hb as [|d l Hd _ IH]; cbn [app firstIdentifier].
    - by rewrite decide_True.
    - by rewrite decide_False. }
  unfold extractFunctionName, extractClassName, function_v1.GetFunctionName,
    GetFunctionName, GetInterfaceName, GetTypeAliasName, findIdentifierInChildren.
  rewrite !findIdentifier_first, F. repeat split.
  - intros [->| ->]; reflexivity.
  - intros ->. reflexivity.
  - intros ->. reflexivity.
Qed.

Lemma X9_identifier_child_names_witness :
  let fn := rootNode (nodeOf NodeTypeFunction "function f(a) {}"
              [ nodeOf NodeTypeUnknown "function" [];
                nodeOf NodeTypeIdentifier "f" [];
                nodeOf NodeTypeParameter "(a)" [nodeOf NodeTypeIdentifier "a" []] ]) in
  extractFunctionName fn = "f" /\ GetFunctionName (Some fn) = "f".
Proof.
  intros fn.
  pose (kw := {| base := nodeOf NodeTypeUnknown "function" [];
                 ParentNode := Some fn; slot := 0 |}).
  pose (id := {| base := nodeOf NodeTypeIdentifier "f" [];
                 ParentNode := Some fn; slot := 1 |}).
  pose (ps := {| base := nodeOf NodeTypeParameter "(a)" [nodeOf NodeTypeIdentifier "a" []];
                 ParentNode := Some fn; slot := 2 |}).
  destruct (X9_identifier_child_names fn id [kw] [ps]) as (H1 & _ & _ & H2 & _).
  - reflexivity.
  - reflexivity.
  - repeat constructor. discriminate.
  - split; [exact H1|]. apply H2. by left.
Defined.

(** X10. The current [GetFunctionName] agrees with the earlier version on
    nodes tagged Function or Method, and, unlike the earlier version, returns
    the empty string on every node that is not tagged Function, Method or
    ArrowFunction, and on an arrow function without parent. *)
Theorem X10_GetFunctionName_versions (n : Node) :
  (Type_ n = NodeTypeFunction \/ Type_ n = NodeTypeMethod ->
   GetFunctionName (Some n) = function_v1.GetFunctionName (Some n)) /\
  (Type_ n <> NodeTypeFunction -> Type_ n <> NodeTypeMethod ->
   Type_ n <> NodeTypeArrowFunction -> GetFunctionName (Some n) = "") /\
  (Type_ n = NodeTypeArrowFunction -> Parent n = None -> GetFunctionName (Some n) = "") /\
  GetFunctionName None = "".
Proof.
  unfold GetFunctionName, function_v1.GetFunctionName, findIdentifierInChildren.
  repeat split.
  - intros [->| ->]; reflexivity.
  - intros H1 H2 H3. by rewrite !bool_decide_eq_false_2.
  - intros -> Hp. cbn. unfold extractArrowFunctionName. by rewrite Hp.
Qed.

Lemma X10_GetFunctionName_versions_witness :
  let id := rootNode (nodeOf NodeTypeInterface "interface A {}"
              [nodeOf NodeTypeIdentifier "A" []]) in
  GetFunctionName (Some id) = "" /\ function_v1.GetFunctionName (Some id) = "A".
Proof.
  intros id. split; [|reflexivity].
  apply (X10_GetFunctionName_versions id); discriminate.
Defined.

Lemma find_some_pair {A : Type} (f : A -> bool) (l : list A) (x : A) :
  List.find f l = Some x -> x ∈ l /\ f x = true.
Proof. intros H. apply List.find_some in H as [H1 H2]. by rewrite list_elem_of_In. Qed.

(** X11. A name recovered for an arrow function is never invented: when
    [GetFunctionName] returns a non-empty name for an arrow-function node,
    that name is the text of a direct child, tagged Identifier, of one of the
    node's ancestors, and it occurs in that ancestor's text before the arrow
    function's own text. *)
Theorem X11_arrow_name_provenance (n : Node) :
  Type_ n = NodeTypeArrowFunction ->
  GetFunctionName (Some n) <> "" ->
  exists a c,
    a ∈ ancestorsOf n /\ c ∈ Children a /\ Type_ c = NodeTypeIdentifier /\
    Text c = GetFunctionName (Some n) /\
    occursBefore (Text a) (Text c) (Text n) = true.
Proof.
  intros Ht. unfold GetFunctionName. rewrite Ht. cbn.
  unfold extractArrowFunctionName, Parent.
  destruct n as [b [p|] i]; cbn [ParentNode]; [|done].
  rewrite arrowNameLoop_spec.
  set (n := {| base := b; ParentNode := Some p; slot := i |}).
  change (p :: ancestorsOf p) with (ancestorsOf n).
  destruct (List.find _ _) as [[a c]|] eqn:F; [|done]. intros _.
  apply find_some_pair in F as [Hin Hocc].
  apply list_elem_of_In, in_flat_map in Hin as (a' & Ha' & Hin).
  apply in_map_iff in Hin as (c' & [= <- <-] & Hc').
  apply List.filter_In in Hc' as [Hc' Hid]. apply bool_decide_eq_true in Hid.
  exists a', c'. repeat split; try done; by apply list_elem_of_In.
Qed.

Lemma X11_arrow_name_provenance_witness :
  let decl := rootNode (nodeOf NodeTypeUnknown "add = () => 1"
                [ nodeOf NodeTypeIdentifier "add" [];
                  nodeOf NodeTypeUnknown "=" [];
                  nodeOf NodeTypeArrowFunction "() => 1" [] ]) in
  let arrow := {| base := nodeOf NodeTypeArrowFunction "() => 1" [];
                  ParentNode := Some decl; slot := 2 |} in
  exists a c,
    a ∈ ancestorsOf arrow /\ c ∈ Children a /\ Type_ c = NodeTypeIdentifier /\
    Text c = GetFunctionName (Some arrow) /\
    occursBefore (Text a) (Text c) (Text arrow) = true.
Proof.
  intros decl arrow. apply (X11_arrow_name_provenance arrow).
  - reflexivity.
  - discriminate.
Defined.

(** ** Further properties: the statement reconstructor *)

Lemma prefix_decides (node : Node) (prefix : string) :
  prefix ∈ prefixRules ->
  strings.HasPrefix (strings.TrimSpace (Text node)) prefix = true ->
  buildStatement (Some node) = Some (builderFor prefix node).
Proof.
  unfold prefixRules. intros Hin H.
  repeat (apply elem_of_cons in Hin as [->|Hin];
          [split_prefix H; reflexivity|]).
  by apply elem_of_nil in Hin.
Qed.

(** X12. The prefix rules exclude one another: a child whose trimmed text
    starts with any of the twenty-three rule prefixes is classified by that
    prefix alone, whatever the order of the rules, by the builder that goes
    with the prefix.  No word boundary is required after [return], [break]
    and [continue]. *)
Theorem X12_prefix_decides (node : Node) (prefix : string) :
  prefix ∈ prefixRules ->
  strings.HasPrefix (strings.TrimSpace (Text node)) prefix = true ->
  buildStatement (Some node) = Some (builderFor prefix node).
Proof. apply prefix_decides. Qed.

Lemma X12_prefix_decides_witness :
  let n := rootNode (nodeOf NodeTypeExpression "returnValue = compute();" []) in
  buildStatement (Some n) = Some (ReturnStatement n).
Proof.
  intros n. apply (X12_prefix_decides n "return").
  - do 17 apply list_elem_of_further. apply list_elem_of_here.
  - reflexivity.
Defined.

Lemma no_prefix_rule (node : Node) :
  existsb (strings.HasPrefix (strings.TrimSpace (Text node))) prefixRules = false ->
  buildStatement (Some node) =
    if strings.Contains (Text node) "enum "
    then Some (buildEnumDeclaration node)
    else if strings.Contains (Text node) "namespace "
    then Some (buildNamespaceDeclaration node)
    else if (0 <? len (strings.TrimSpace (Text node)))%N
            && negb (strings.HasPrefix (Text node) "//")
    then Some (ExpressionStatement node)
    else None.
Proof.
  unfold prefixRules. cbn [existsb]. intros H.
  repeat (apply orb_false_elim in H; destruct H as [? H]).
  unfold buildStatement; cbv zeta.
  repeat match goal with
  | H : strings.HasPrefix _ _ = false |- _ => rewrite H; clear H
  end.
  reflexivity.
Qed.

Lemma no_prefix_rule_export (node : Node) :
  existsb (strings.HasPrefix (strings.TrimSpace (Text node))) prefixRules = false ->
  strings.HasPrefix (strings.TrimSpace (Text node)) "export " = false.
Proof.
  unfold prefixRules. cbn [existsb]. intros H.
  repeat (apply orb_false_elim in H; destruct H as [? H]). assumption.
Qed.

(** X13. The two substring rules come after every prefix rule: a child
    that no prefix rule matches and whose text contains [enum ] anywhere (in
    a comment, a string, an identifier followed by a space) becomes an
    EnumDeclaration, with IsConst set when the text contains [const enum];
    failing that, one whose text contains [namespace ] becomes a
    NamespaceDeclaration.  In both the IsExported field is false. *)
Theorem X13_substring_rules (node : Node) :
  existsb (strings.HasPrefix (strings.TrimSpace (Text node))) prefixRules = false ->
  (strings.Contains (Text node) "enum " = true ->
   buildStatement (Some node) =
     Some (EnumDeclaration node (strings.Contains (Text node) "const enum") false)) /\
  (strings.Contains (Text node) "enum " = false ->
   strings.Contains (Text node) "namespace " = true ->
   buildStatement (Some node) = Some (NamespaceDeclaration node false)).
Proof.
  intros H. rewrite (no_prefix_rule _ H).
  pose proof (no_prefix_rule_export _ H) as He.
  unfold buildEnumDeclaration, buildNamespaceDeclaration. rewrite He.
  split; [by intros ->|by intros -> ->].
Qed.

Lemma X13_substring_rules_witness :
  let n := rootNode (nodeOf NodeTypeUnknown "// the enum values follow" []) in
  buildStatement (Some n) = Some (EnumDeclaration n false false).
Proof.
  intros n. destruct (X13_substring_rules n) as [H _]; [reflexivity|].
  apply H. reflexivity.
Defined.

Lemma HasPrefix_function_export (s : string) :
  strings.HasPrefix s "function " || strings.HasPrefix s "async function"
  || strings.HasPrefix s "class " || strings.HasPrefix s "abstract class" = true ->
  strings.HasPrefix s "export " = false.
Proof.
  intros H.
  repeat (apply orb_true_iff in H as [H|H]);
    apply HasPrefix_inv in H as [rest ->]; reflexivity.
Qed.

Lemma exportedFlag_for (n : Node) : exportedFlag (buildForStatement n) = false.
Proof. unfold buildForStatement. repeat case_match; reflexivity. Qed.

(** X14. The IsExported field is dead: no statement that [buildStatement]
    returns, of any variant, has it set.  A text that starts with [export ]
    is taken by the export rule, and the builders of functions, classes,
    enums and namespaces run only on texts that do not start with it. *)
Theorem X14_IsExported_field_never_set (node : option Node) (stmt : Statement) :
  buildStatement node = Some stmt -> exportedFlag stmt = false.
Proof.
  destruct node as [n|]; [|discriminate].
  destruct (existsb (strings.HasPrefix (strings.TrimSpace (Text n))) prefixRules) eqn:E.
  - apply existsb_exists in E as (p & Hp%list_elem_of_In & H).
    rewrite (prefix_decides n p Hp H). intros [= <-].
    unfold prefixRules in Hp.
    repeat (apply elem_of_cons in Hp as [->|Hp];
      [first [ reflexivity
             | exact (exportedFlag_for n)
             | apply HasPrefix_function_export; rewrite H;
               cbn [orb]; by rewrite ?orb_true_r ] |]).
    by apply elem_of_nil in Hp.
  - rewrite (no_prefix_rule _ E). pose proof (no_prefix_rule_export _ E) as He.
    unfold buildEnumDeclaration, buildNamespaceDeclaration. rewrite He.
    repeat case_match; intros [= <-]; reflexivity.
Qed.

Lemma X14_IsExported_field_never_set_witness :
  let n := rootNode (nodeOf NodeTypeUnknown "abstract class Shape {}" []) in
  buildStatement (Some n) = Some (ClassDeclaration n "Shape" true false) /\
  exportedFlag (ClassDeclaration n "Shape" true false) = false.
Proof.
  intros n. split; [reflexivity|].
  apply (X14_IsExported_field_never_set (Some n)). reflexivity.
Defined.

(** X15. [buildStatement] returns nil only at the very end: a child is
    discarded exactly when no rule matches it and its trimmed text is empty
    or its text starts with two slashes.  Everything else, block comments
    and unrecognised declarations included, yields a statement. *)
Theorem X15_discarded_children (node : Node) :
  buildStatement (Some node) = None <->
  matchedByRule (Text node) = false /\
  (strings.TrimSpace (Text node) = "" \/ isLineComment (Text node) = true).
Proof.
  unfold matchedByRule, containsRules, isLineComment. cbn [existsb].
  destruct (existsb (strings.HasPrefix (strings.TrimSpace (Text node))) prefixRules) eqn:E.
  - apply existsb_exists in E as (p & Hp%list_elem_of_In & H).
    rewrite (prefix_decides node p Hp H). cbn [orb]. split; [discriminate|by intros [? _]].
  - rewrite (no_prefix_rule _ E). cbn [orb]. rewrite orb_false_r.
    destruct (strings.Contains (Text node) "enum "); cbn [orb];
      [split; [discriminate|by intros [? _]]|].
    destruct (strings.Contains (Text node) "namespace "); cbn [orb];
      [split; [discriminate|by intros [? _]]|].
    destruct (strings.TrimSpace (Text node)) eqn:Et.
    + cbn. split; [intros _; split; [done|by left]|done].
    + change (0 <? len (String a s))%N with true. cbn [andb].
      destruct (strings.HasPrefix (Text node) "//"); cbn [negb].
      * split; [intros _; split; [done|by right]|done].
      * split; [discriminate|]. intros [_ [?|?]]; discriminate.
Qed.

Lemma buildStatement_node (node : Node) (stmt : Statement) :
  buildStatement (Some node) = Some stmt -> stmtNode stmt = node.
Proof.
  unfold buildStatement, buildVariableStatement, buildFunctionDeclaration,
    buildClassDeclaration, buildForStatement, buildExportDeclaration,
    buildEnumDeclaration, buildNamespaceDeclaration. cbv zeta.
  repeat case_match; intros [= <-]; reflexivity.
Qed.

Lemma omap_sublist {A B : Type} (f : A -> option B) (g : B -> A) (l : list A) :
  (forall x y, f x = Some y -> g y = x) ->
  sublist (g <$> omap f l) l.
Proof.
  intros H. induction l as [|x l IH]; cbn [omap list_omap]; [constructor|].
  destruct (f x) as [y|] eqn:E; cbn [fmap list_fmap].
  - rewrite (H x y E). by apply sublist_skip.
  - by apply sublist_cons.
Qed.

(** X16. Every statement of a tree returned by [ParseTree] embeds a direct
    child of the tree's root, and the embedded nodes follow the order of the
    children with at most one statement per child; the root is the one
    [Parse] returns, and it has no parent. *)
Theorem X16_statements_wrap_children (p : Parser) (source : string) (tree : Tree)
    (err : option string) :
  ParseTree p source = Returned (Some tree, err) ->
  err = None /\
  exists r,
    Parse p source = Returned (Some r, None) /\
    Root tree = Some r /\ Parent r = None /\
    sublist (stmtNode <$> Statements tree) (Children r) /\
    (length (Statements tree) <= length (Children r))%nat /\
    (forall stmt, stmt ∈ Statements tree ->
       buildStatement (Some (stmtNode stmt)) = Some stmt).
Proof.
  unfold ParseTree. destruct (Parse p source) as [|[root [e|]]] eqn:EP; try discriminate.
  intros [= <- <-]. split; [reflexivity|].
  assert (Hr : exists r, root = Some r /\ Parent r = None).
  { unfold Parse in EP. repeat case_match; try discriminate.
    injection EP as <-. eexists. split; reflexivity. }
  destruct Hr as (r & -> & Hpar). exists r. cbn [Root Statements].
  rewrite extractStatements_omap.
  split; [reflexivity|]. split; [reflexivity|]. split; [exact Hpar|].
  assert (S : sublist (stmtNode <$> omap (fun c => buildStatement (Some c)) (Children r))
                (Children r)) by (apply omap_sublist, buildStatement_node).
  split; [exact S|]. split.
  - apply sublist_length in S. by rewrite length_fmap in S.
  - intros stmt (c & Hc & Hb)%list_elem_of_omap.
    by rewrite (buildStatement_node _ _ Hb).
Qed.

Lemma X16_statements_wrap_children_witness :
  exists tree r,
    ParseTree (engineOn src_const_add cst_const_add) src_const_add =
      Returned (Some tree, None) /\
    Root tree = Some r /\
    sublist (stmtNode <$> Statements tree) (Children r).
Proof.
  destruct (ParseTree (engineOn src_const_add cst_const_add) src_const_add)
    as [|[[tree|] err]] eqn:E; try (vm_compute in E; discriminate E).
  destruct (X16_statements_wrap_children _ _ _ _ E) as (-> & r & _ & Hr & _ & S & _).
  exists tree, r. repeat split; assumption.
Defined.

(** ** Further properties: names recovered from the text *)

Lemma Contains_cons (c d : ascii) (s : string) :
  strings.Contains (String c s) (String d "") =
    Ascii.eqb c d || strings.Contains s (String d "").
Proof.
  unfold strings.Contains. cbn [strings.Index strings.HasPrefix].
  destruct (Ascii.eqb c d); [reflexivity|]. cbn [orb].
  pose proof (Index_lower_bound s (String d "")).
  destruct (Z.ltb_spec (strings.Index s (String d "")) 0).
  - symmetry. apply Z.leb_gt. lia.
  - rewrite !(proj2 (Z.leb_le _ _)) by lia. reflexivity.
Qed.

Lemma Contains_take_Index (d : ascii) (s : string) :
  strings.Contains
    (strings.take (Z.to_nat (strings.Index s (String d ""))) s) (String d "") = false.
Proof.
  induction s as [|c s IH]; [reflexivity|].
  cbn [strings.Index strings.HasPrefix].
  destruct (Ascii.eqb c d) eqn:E; [reflexivity|].
  pose proof (Index_lower_bound s (String d "")).
  destruct (Z.ltb_spec (strings.Index s (String d "")) 0); [reflexivity|].
  replace (Z.to_nat (strings.Index s (String d "") + 1))
    with (S (Z.to_nat (strings.Index s (String d "")))) by lia.
  cbn [strings.take]. by rewrite Contains_cons, E, IH.
Qed.

Lemma Contains_TrimRightSpace (d : ascii) (s : string) :
  strings.Contains s (String d "") = false ->
  strings.Contains (strings.TrimRightSpace s) (String d "") = false.
Proof.
  induction s as [|c s IH]; [done|]. rewrite Contains_cons.
  intros [Hc Hs]%orb_false_elim. cbn [strings.TrimRightSpace].
  destruct (strings.allSpace (String c s)); [reflexivity|].
  by rewrite Contains_cons, Hc, IH.
Qed.

Lemma Contains_TrimLeftSpace (d : ascii) (s : string) :
  strings.Contains s (String d "") = false ->
  strings.Contains (strings.TrimLeftSpace s) (String d "") = false.
Proof.
  remember (String.length s) as k eqn:Hk.
  revert s Hk. induction k as [k IH] using lt_wf_ind. intros s -> H.
  destruct s as [|c1 s1]; [done|]. cbn [strings.TrimLeftSpace].
  pose proof H as H0. rewrite Contains_cons in H. apply orb_false_elim in H as [_ H1].
  destruct (strings.asciiSpace c1).
  { eapply IH; [|reflexivity|exact H1]. cbn. lia. }
  destruct s1 as [|c2 s2]; [exact H0|].
  pose proof H1 as H1'. rewrite Contains_cons in H1'. apply orb_false_elim in H1' as [_ H2].
  destruct (strings.isSpace2 c1 c2).
  { eapply IH; [|reflexivity|exact H2]. cbn. lia. }
  destruct s2 as [|c3 s3]; [exact H0|].
  pose proof H2 as H2'. rewrite Contains_cons in H2'. apply orb_false_elim in H2' as [_ H3].
  destruct (strings.isSpace3 c1 c2 c3); [|exact H0].
  eapply IH; [|reflexivity|exact H3]. cbn. lia.
Qed.

Lemma Contains_TrimSpace (d : ascii) (s : string) :
  strings.Contains s (String d "") = false ->
  strings.Contains (strings.TrimSpace s) (String d "") = false.
Proof.
  intros H. by apply Contains_TrimRightSpace, Contains_TrimLeftSpace.
Qed.

(** X17. When a node has no child tagged Identifier, the function name is
    cut out of the text, and it is cut before the first opening
    parenthesis: the name that comes back never contains one.  It is empty
    when the text, keywords stripped, has no parenthesis or starts with
    one. *)
Theorem X17_function_name_from_text (n : Node) :
  Forall (fun c => Type_ c <> NodeTypeIdentifier) (Children n) ->
  strings.Contains (extractFunctionName n) "(" = false.
Proof.
  intros H%firstIdentifier_None. unfold extractFunctionName. rewrite H. cbv zeta.
  match goal with |- context [strings.Index ?t "("] => generalize t end.
  intros t. destruct (0 <? strings.Index t "("); [|reflexivity].
  apply Contains_TrimSpace, Contains_take_Index.
Qed.

Lemma X17_function_name_from_text_witness :
  let n := rootNode (nodeOf NodeTypeFunction "async function load (url) {}" []) in
  extractFunctionName n = "load" /\
  strings.Contains (extractFunctionName n) "(" = false.
Proof.
  intros n. split; [reflexivity|].
  apply (X17_function_name_from_text n). constructor.
Defined.

(** X18. When a class node has no child tagged Identifier (the engine tags
    a class name type_identifier, which is not mapped), the class name is
    cut out of the text at the first delimiter of the list that occurs past
    the first byte, and the list starts with the opening brace: whenever the
    text after the [class ] keyword has a brace past its first byte, the name
    is everything before that brace, an [extends] or [implements] clause
    included. *)
Theorem X18_class_name_cut_at_brace (n : Node) (rest : string) :
  Forall (fun c => Type_ c <> NodeTypeIdentifier) (Children n) ->
  strings.TrimSpace (Text n) = "class " +:+ rest ->
  0 < strings.Index (strings.TrimSpace rest) "{" ->
  extractClassName n =
    strings.TrimSpace
      (strings.take (Z.to_nat (strings.Index (strings.TrimSpace rest) "{"))
         (strings.TrimSpace rest)) /\
  strings.Contains (extractClassName n) "{" = false.
Proof.
  intros H%firstIdentifier_None E Hi. 
  assert (G : extractClassName n =
    strings.TrimSpace
      (strings.take (Z.to_nat (strings.Index (strings.TrimSpace rest) "{"))
         (strings.TrimSpace rest))).
  { unfold extractClassName. rewrite H, E. cbv zeta.
    change (strings.HasPrefix ("class " +:+ rest) "abstract ") with false. cbv iota.
    change (strings.HasPrefix ("class " +:+ rest) "class ") with true. cbv iota.
    change (strings.TrimPrefix ("class " +:+ rest) "class ") with rest.
    apply Z.ltb_lt in Hi. by rewrite Hi. }
  split; [exact G|]. rewrite G. apply Contains_TrimSpace, Contains_take_Index.
Qed.

Lemma X18_class_name_cut_at_brace_witness :
  let n := rootNode (nodeOf NodeTypeUnknown "class Dog extends Animal { }"
             [ nodeOf NodeTypeUnknown "class" [];
               nodeOf NodeTypeUnknown "Dog" [];
               nodeOf NodeTypeUnknown "extends Animal" [];
               nodeOf NodeTypeUnknown "{ }" [] ]) in
  extractClassName n = "Dog extends Animal".
Proof.
  intros n.
  destruct (X18_class_name_cut_at_brace n "Dog extends Animal { }") as [H _].
  - repeat constructor; discriminate.
  - reflexivity.
  - reflexivity.
  - rewrite H. reflexivity.
Defined.

(** ** Further properties: conversion *)

Lemma tsNodes_unfold (n : TSNode) :
  tsNodes n =
    n :: flat_map (fun oc => match oc with Some c => tsNodes c | None => [] end) (Child n).
Proof. by destruct n. Qed.

Lemma convertNode_unfold (node : TSNode) (source : string) :
  convertNode node source =
    match slice source (StartByte node) (EndByte node) with
    | Panicked => Panicked
    | Returned content =>
        match
          (fix convertChildren (cs : list (option TSNode)) : go (list BaseNode) :=
             match cs with
             | [] => Returned []
             | None :: cs' => convertChildren cs'
             | Some child :: cs' =>
                 match convertNode child source with
                 | Panicked => Panicked
                 | Returned childNode =>
                     match convertChildren cs' with
                     | Panicked => Panicked
                     | Returned rest => Returned (childNode :: rest)
                     end
                 end
             end) (Child node)
        with
        | Panicked => Panicked
        | Returned childNodes =>
            Returned
              {| NodeType_ := mapNodeType (Kind node);
                 Content := content;
                 ChildNodes := childNodes;
                 SourceRange :=
                   {| Start := {| Line := uint32 (Row (StartPosition node));
                                  Column := uint32 (Column_ (StartPosition node));
                                  Offset := uint32 (StartByte node) |};
                      End_ := {| Line := uint32 (Row (EndPosition node));
                                 Column := uint32 (Column_ (EndPosition node));
                                 Offset := uint32 (EndByte node) |} |} |}
        end
    end.
Proof. by destruct node. Qed.

Lemma convertNode_copy (node : TSNode) (source : string) (b : BaseNode) :
  convertNode node source = Returned b ->
  Forall2 (copyOf source) (tsNodes node) (nodes b) /\
  length (nodes b) = length (tsNodes node).
Proof.
  intros H.
  assert (G : Forall2 (copyOf source) (tsNodes node) (nodes b)).
  2: { split; [exact G|]. symmetry. by eapply Forall2_length. }
  revert b H. induction node as [node IH] using TSNode_tree_ind. intros b.
  rewrite convertNode_unfold, tsNodes_unfold.
  destruct (slice source (StartByte node) (EndByte node)) as [|content] eqn:Es;
    [discriminate|].
  set (conv := fix convertChildren (l : list (option TSNode)) {struct l}
                 : go (list BaseNode) := _).
  assert (L : forall kids, conv (Child node) = Returned kids ->
    Forall2 (copyOf source)
      (flat_map (fun oc => match oc with Some c => tsNodes c | None => [] end) (Child node))
      (flat_map nodes kids)).
  { induction IH as [|[c|] l Hc _ IHl]; intros kids Hk; cbn in Hk.
    - injection Hk as <-. constructor.
    - destruct (convertNode c source) as [|kc] eqn:Ec; [discriminate|].
      destruct (conv l) as [|rest] eqn:Er; [discriminate|].
      injection Hk as <-. cbn [flat_map]. apply Forall2_app.
      + by apply Hc.
      + by apply IHl.
    - cbn [flat_map app]. by apply IHl. }
  destruct (conv (Child node)) as [|kids] eqn:Ek; [discriminate|].
  intros [= <-]. cbn [nodes ChildNodes]. constructor.
  - repeat split. exact Es.
  - by apply L.
Qed.



Lemma slice_valid (source : string) (e : TSNode) :
  validRange source e = true ->
  exists t, slice source (StartByte e) (EndByte e) = Returned t.
Proof.
  unfold slice, validRange. intros ->. by eexists.
Qed.

(** With every range ordered and within the length of the source, no slice
    expression of the conversion is out of range. *)
Lemma convertNode_returns (node : TSNode) (source : string) :
  Forall (fun e => validRange source e = true) (tsNodes node) ->
  exists b, convertNode node source = Returned b.
Proof.
  induction node as [node IH] using TSNode_tree_ind.
  rewrite convertNode_unfold, tsNodes_unfold.
  intros [Hv Hk]%Forall_cons. apply slice_valid in Hv as [content ->].
  set (conv := fix convertChildren (l : list (option TSNode)) {struct l}
                 : go (list BaseNode) := _).
  assert (L : exists kids, conv (Child node) = Returned kids).
  { revert Hk. induction IH as [|[c|] l Hc _ IHl]; cbn [flat_map]; intros Hk.
    - by exists [].
    - apply Forall_app in Hk as [Hk1 Hk2]. cbn [onChild] in Hc.
      destruct (Hc Hk1) as [kc Ec]. destruct (IHl Hk2) as [rest Er].
      exists (kc :: rest). cbn -[convertNode]. by rewrite Ec, Er.
    - cbn [app] in Hk. exact (IHl Hk). }
  destruct L as [kids ->]. by eexists.
Qed.

(** A converted tree comes from ordered ranges only. *)
Lemma convertNode_ordered (node : TSNode) (source : string) (b : BaseNode) :
  convertNode node source = Returned b ->
  Forall (fun e => (StartByte e <= EndByte e)%N) (tsNodes node).
Proof.
  intros H. destruct (convertNode_copy _ _ _ H) as [F _].
  induction F as [|e m es ms (_ & Hs & _) _ IH]; constructor; [|exact IH].
  by destruct (slice_inv _ _ _ _ Hs).
Qed.

(** X20. The conversion is safe on well-formed engine output and fails on
    reversed ranges: when every non-nil node of the engine tree has
    [StartByte <= EndByte <= len(source)], [convertNode] returns, and on a
    non-empty source whose engine tree has a root [Parse] returns a root
    without parent and no error, and [ParseTree] a tree and no error; a
    tree is returned only if every range has [StartByte <= EndByte], so a
    node with [EndByte < StartByte] makes [convertNode] panic. *)
Theorem X20_conversion_safety (p : Parser) (node : TSNode) (source : string) :
  (Forall (fun e => validRange source e = true) (tsNodes node) ->
   (exists b, convertNode node source = Returned b) /\
   (source <> "" -> parser p source = Some {| RootNode := Some node |} ->
    (exists r, Parse p source = Returned (Some r, None) /\ Parent r = None) /\
    (exists tree, ParseTree p source = Returned (Some tree, None)))) /\
  (forall b, convertNode node source = Returned b ->
     Forall (fun e => (StartByte e <= EndByte e)%N) (tsNodes node)) /\
  (Exists (fun e => (EndByte e < StartByte e)%N) (tsNodes node) ->
   convertNode node source = Panicked).
Proof.
  split; [|split].
  - intros HF. destruct (convertNode_returns _ _ HF) as [b Hb].
    split; [by exists b|]. intros Hne Hp.
    assert (HP : Parse p source = Returned (Some (rootNode b), None)).
    { unfold Parse. destruct (N.eqb_spec (len source) 0) as [E|E].
      - apply N.eqb_eq, len_zero in E. done.
      - rewrite Hp. cbn [RootNode]. by rewrite Hb. }
    split; [by exists (rootNode b)|].
    unfold ParseTree. rewrite HP. by eexists.
  - apply convertNode_ordered.
  - intros Hex. destruct (convertNode node source) as [|b] eqn:E; [reflexivity|].
    apply convertNode_ordered in E. apply Exists_exists in Hex as (e & He & Hlt).
    rewrite Forall_forall in E. specialize (E e He). lia.
Qed.

Lemma X20_conversion_safety_witness :
  (exists r, Parse (engineOn src_for_of cst_for_of) src_for_of
               = Returned (Some r, None) /\ Parent r = None) /\
  convertNode (ts "program" 0 2 [ts "identifier" 2 1 []]) "ab" = Panicked.
Proof.
  split.
  - destruct (X20_conversion_safety (engineOn src_for_of cst_for_of)
                cst_for_of src_for_of) as [H _].
    destruct H as [_ H].
    + apply Forall_forall. intros e He.
      repeat (apply elem_of_cons in He as [->|He]; [reflexivity|]).
      by apply elem_of_nil in He.
    + destruct H as [H _]; [discriminate|reflexivity|exact H].
  - destruct (X20_conversion_safety (engineOn src_for_of cst_for_of)
                (ts "program" 0 2 [ts "identifier" 2 1 []]) "ab") as (_ & _ & H).
    apply H. apply Exists_cons_tl, Exists_cons_hd. reflexivity.
Defined.

Lemma take_length (k : nat) (s : string) :
  (k <= String.length s)%nat -> String.length (strings.take k s) = k.
Proof.
  revert s. induction k as [|k IH]; intros s H; [reflexivity|].
  destruct s as [|c s]; cbn in *; [lia|]. rewrite IH; lia.
Qed.

Lemma drop_length (k : nat) (s : string) :
  String.length (strings.drop k s) = (String.length s - k)%nat.
Proof.
  revert s. induction k as [|k IH]; intros s; [cbn; lia|].
  destruct s as [|c s]; cbn; [reflexivity|]. apply IH.
Qed.

Lemma slice_length (source : string) (lo hi : N) (t : string) :
  slice source lo hi = Returned t -> len t = (hi - lo)%N.
Proof.
  intros H. pose proof (slice_inv _ _ _ _ H) as [H1 H2].
  unfold slice in H.
  destruct ((lo <=? hi)%N && (hi <=? len source)%N); [|discriminate].
  injection H as <-. unfold len in *.
  rewrite take_length; [lia|]. rewrite drop_length. lia.
Qed.

(** X21. Every node of a converted tree has a well-formed range and a text
    of matching length: when the byte offsets the engine reports fit in 32
    bits (as the engine's own offsets do), the stored start offset is at
    most the stored end offset and the length of the stored text is their
    difference. *)
Theorem X21_ranges_well_formed (node : TSNode) (source : string) (b : BaseNode) :
  Forall (fun e => (EndByte e < 2 ^ 32)%N) (tsNodes node) ->
  convertNode node source = Returned b ->
  Forall
    (fun m =>
       (Offset (Start (SourceRange m)) <= Offset (End_ (SourceRange m)))%N /\
       len (Content m) =
         (Offset (End_ (SourceRange m)) - Offset (Start (SourceRange m)))%N)
    (nodes b).
Proof.
  intros H32 H. destruct (convertNode_copy _ _ _ H) as [F _].
  clear H. revert H32.
  induction F as [|e m es ms (_ & Hs & Hr) _ IH]; intros H32; constructor.
  - apply Forall_cons in H32 as [He _].
    rewrite Hr. cbn [Start End_ Offset].
    destruct (slice_inv _ _ _ _ Hs) as [H1 _].
    rewrite !uint32_small by lia. split; [done|].
    exact (slice_length _ _ _ _ Hs).
  - apply IH. by apply Forall_cons in H32 as [_ ?].
Qed.

Lemma X21_ranges_well_formed_witness :
  match convertNode cst_export_async src_export_async with
  | Returned b =>
      Forall
        (fun m =>
           (Offset (Start (SourceRange m)) <= Offset (End_ (SourceRange m)))%N /\
           len (Content m) =
             (Offset (End_ (SourceRange m)) - Offset (Start (SourceRange m)))%N)
        (nodes b)
  | Panicked => False
  end.
Proof.
  destruct (convertNode cst_export_async src_export_async) as [|b] eqn:E.
  - vm_compute in E. discriminate E.
  - apply (X21_ranges_well_formed cst_export_async src_export_async b); [|exact E].
    apply Forall_forall. intros e He.
    repeat (apply elem_of_cons in He as [->|He]; [reflexivity|]).
    by apply elem_of_nil in He.
Defined.

(** ** Further properties: the classifier and the file entry points *)

(** X22. The classifier produces the Expression tag for the eight
    expression-like kinds and for nothing else, and the Unknown tag exactly
    for the kinds that are neither directly mapped nor expression-like;
    [isExpressionType] is membership in the eight. *)
Theorem X22_expression_and_unknown_tags (tsType : string) :
  (mapNodeType tsType = NodeTypeExpression <-> tsType ∈ expressionLike) /\
  (mapNodeType tsType = NodeTypeUnknown <->
   (tsType ∉ directlyMapped) /\ (tsType ∉ expressionLike)) /\
  (parser_map.isExpressionType tsType = true <-> tsType ∈ expressionLike).
Proof.
  unfold mapNodeType. rewrite <- mapNodeType_equiv, <- isExpressionType_equiv.
  rewrite isExpressionType_member, bool_decide_eq_true.
  destruct (decide (tsType ∈ directlyMapped)) as [Hin|Hout].
  - assert (Hne : tsType ∉ expressionLike).
    { unfold directlyMapped in Hin.
      repeat (apply elem_of_cons in Hin as [->|Hin];
              [apply (bool_decide_unpack _); vm_compute; exact I|]).
      by apply elem_of_nil in Hin. }
    unfold directlyMapped in Hin.
    repeat (apply elem_of_cons in Hin as [->|Hin];
      [repeat split; try discriminate; try tauto; try (intros [H _]; exfalso; apply H;
         apply (bool_decide_unpack _); vm_compute; exact I)|]).
    by apply elem_of_nil in Hin.
  - rewrite (mapNodeType_unmapped _ Hout), isExpressionType_member.
    destruct (decide (tsType ∈ expressionLike)) as [He|He].
    + rewrite bool_decide_eq_true_2 by done. repeat split; try done. by intros [_ ?].
    + rewrite bool_decide_eq_false_2 by done. repeat split; try done.
Qed.

(** X23. The file entry points compose the in-memory ones with the read:
    when the file cannot be read they return the read error, wrapped, and no
    node or tree; otherwise [ParseFile] is [Parse] and [ParseTreeFromFile]
    is [ParseTree] on the bytes read, so that an empty file gives the
    empty-source error; an error never comes with a tree. *)
Theorem X23_file_entry_points (ReadFile : string -> readResult) (p : Parser)
    (path : string) :
  (forall msg, ReadFile path = ReadErr msg ->
     ParseFile ReadFile p path =
       Returned (None, Some ("failed to read file: " +:+ msg)) /\
     ParseTreeFromFile ReadFile p path =
       Returned (None, Some ("failed to read file: " +:+ msg))) /\
  (forall source, ReadFile path = ReadOk source ->
     ParseFile ReadFile p path = Parse p source /\
     ParseTreeFromFile ReadFile p path = ParseTree p source) /\
  (ReadFile path = ReadOk "" ->
     ParseTreeFromFile ReadFile p path = Returned (None, Some "source code is empty")) /\
  (forall tree err,
     ParseTreeFromFile ReadFile p path = Returned (tree, Some err) -> tree = None).
Proof.
  unfold ParseTreeFromFile, ParseFile, ParseTree. repeat split.
  - by rewrite H.
  - by rewrite H.
  - by rewrite H.
  - by rewrite H.
  - intros H. by rewrite H.
  - intros tree err. destruct (ReadFile path) as [source|msg].
    + destruct (Parse p source) as [|[root [e|]]]; congruence.
    + congruence.
Qed.

Lemma X23_file_entry_points_witness :
  let ReadFile := (fun path : string =>
                     if String.eqb path "for.ts" then ReadOk src_for_of
                     else if String.eqb path "empty.ts" then ReadOk ""
                     else ReadErr "open: no such file or directory") in
  let p := engineOn src_for_of cst_for_of in
  ParseTreeFromFile ReadFile p "nonexistent.ts" =
    Returned (None, Some "failed to read file: open: no such file or directory") /\
  ParseTreeFromFile ReadFile p "empty.ts" =
    Returned (None, Some "source code is empty") /\
  ParseTreeFromFile ReadFile p "for.ts" = ParseTree p src_for_of.
Proof.
  intros ReadFile p.
  destruct (X23_file_entry_points ReadFile p "nonexistent.ts") as (H1 & _).
  destruct (X23_file_entry_points ReadFile p "empty.ts") as (_ & _ & H2 & _).
  destruct (X23_file_entry_points ReadFile p "for.ts") as (_ & H3 & _).
  split; [|split].
  - apply (H1 "open: no such file or directory"). reflexivity.
  - apply H2. reflexivity.
  - apply (H3 src_for_of). reflexivity.
Defined.




(** X25. On a node tagged Function, the flags of the FunctionDeclaration
    that [buildStatement] builds are those of the analyzer's predicates for
    IsAsync and IsGenerator, computed on the same node; the IsExported field
    is false even where the analyzer's [IsExported] is true. *)
Theorem X25_function_flags_agree (n node : Node) (name : string)
    (isAsync isExported isGenerator : bool) :
  Type_ n = NodeTypeFunction ->
  buildStatement (Some n) =
    Some (FunctionDeclaration node name isAsync isExported isGenerator) ->
  node = n /\ name = extractFunctionName n /\
  isAsync = IsAsync (Some n) /\ isGenerator = IsGenerator (Some n) /\
  isExported = false.
Proof.
  intros Ht Hb.
  pose proof (buildStatement_node _ _ Hb) as Hn. cbn [stmtNode] in Hn. subst node.
  assert (He : isExported = false).
  { change (exportedFlag (FunctionDeclaration n name isAsync isExported isGenerator) = false).
    destruct (existsb (strings.HasPrefix (strings.TrimSpace (Text n))) prefixRules) eqn:E.
    - apply existsb_exists in E as (p & Hp%list_elem_of_In & H).
      rewrite (prefix_decides n p Hp H) in Hb. injection Hb as Hb. rewrite <- Hb.
      unfold prefixRules in Hp.
      repeat (apply elem_of_cons in Hp as [->|Hp];
        [first [ reflexivity
               | exact (exportedFlag_for n)
               | apply HasPrefix_function_export; rewrite H;
                 cbn [orb]; by rewrite ?orb_true_r ] |]).
      by apply elem_of_nil in Hp.
    - rewrite (no_prefix_rule _ E) in Hb. repeat case_match; discriminate Hb. }
  split; [reflexivity|].
  unfold IsAsync, IsGenerator. rewrite Ht. cbn [bool_decide negb andb].
  revert Hb. unfold buildStatement, buildVariableStatement, buildFunctionDeclaration,
    buildClassDeclaration, buildForStatement, buildExportDeclaration,
    buildEnumDeclaration, buildNamespaceDeclaration. cbv zeta.
  repeat case_match; intros [= <- <- <- <-]; repeat split; done.
Qed.

Lemma X25_function_flags_agree_witness :
  let program := rootNode (nodeOf NodeTypeUnknown "export {}; async function* f() {}"
                   [ nodeOf NodeTypeUnknown "export {};" [];
                     nodeOf NodeTypeFunction "async function* f() {}" [] ]) in
  let f := {| base := nodeOf NodeTypeFunction "async function* f() {}" [];
              ParentNode := Some program; slot := 1 |} in
  buildStatement (Some f) = Some (FunctionDeclaration f "f" true false true) /\
  IsAsync (Some f) = true /\ IsGenerator (Some f) = true /\ IsExported (Some f) = true.
Proof.
  intros program f.
  assert (Hb : buildStatement (Some f) = Some (FunctionDeclaration f "f" true false true))
    by reflexivity.
  destruct (X25_function_flags_agree f f "f" true false true eq_refl Hb)
    as (_ & _ & Ha & Hg & _).
  split; [exact Hb|]. split; [by rewrite <- Ha|]. split; [by rewrite <- Hg|reflexivity].
Defined.
